(** * Distortion calibration driver (main_distortionCalibration.cpp)

    A shallow embedding of the AliceVision distortion-calibration program:
    the line extractor [retrieveLines], the five staged unlock schedules
    [estimateDistortionK1] ... [estimateDistortion3DELD], the point
    generator [generatePoints] and the per-intrinsic loop of
    [aliceVision_main].

    Doubles are IEEE binary64 values (Rocq's primitive [float]), so the
    comparisons below behave as the compiled program's do, NaN included.
    The solver [calibration::estimate] and the camera maps [get_d_pixel] /
    [get_ud_pixel] live in libraries outside this file: they are section
    variables, and every call to the solver is recorded in a trace next to
    the log lines the program writes. *)

From Stdlib Require Import ZArith NArith List String Bool Lia Floats.
From Stdlib Require Import Sorted.
From stdpp Require Import base list gmap.
Import ListNotations.

Local Open Scope nat_scope.

(** ** Numeric types *)

Definition double : Type := float.
Definition Vec2 : Type := (double * double)%type.

(** [IndexT] is a 32-bit unsigned integer; [UndefinedIndexT] is its
    largest value. *)
Definition IndexT : Type := N.
Definition UndefinedIndexT : IndexT := 4294967295%N.

(** The <math.h> constants, as the binary64 values the macros denote. *)
Definition M_PI_4 : double := 0x1.921fb54442d18p-1%float.
Definition M_PI_2 : double := 0x1.921fb54442d18p+0%float.

Definition EXIT_SUCCESS : Z := 0%Z.
Definition EXIT_FAILURE : Z := 1%Z.

Module Vec.
(** Eigen's componentwise difference and Euclidean norm on [Vec2]. *)
Definition sub (a b : Vec2) : Vec2 :=
  ((fst a - fst b)%float, (snd a - snd b)%float).

Definition squaredNorm (a : Vec2) : double :=
  (fst a * fst a + snd a * snd a)%float.

Definition norm (a : Vec2) : double := PrimFloat.sqrt (squaredNorm a).
End Vec.

(** ** Detector output *)

(** A detected corner. Only [center] is read by this program. *)
Record CheckerBoardCorner : Type := { center : Vec2 }.

(** Modelled from the spec: the board type is declared in
    checkerDetector.hpp, which is not part of this file's sources. The
    spec describes it as a 2D grid of corner indices of size
    [rows x cols] whose cells hold a corner index or the undefined
    sentinel; [cell b i j] is the source's [b(i, j)]. *)
Record CheckerBoard : Type := {
  rows : nat;
  cols : nat;
  cell : nat -> nat -> IndexT
}.

Record CheckerDetector : Type := {
  getCorners : list CheckerBoardCorner;
  getBoards : list CheckerBoard
}.

(** The default-constructed detector, which [boardsAllImages[viewId]]
    yields for a view whose detector file was missing. *)
Definition emptyDetector : CheckerDetector :=
  {| getCorners := []; getBoards := [] |}.

Record LineWithPoints : Type := {
  angle : double;
  dist : double;
  horizontal : bool;
  index : nat;
  board : nat;
  points : list Vec2
}.

Record PointPair : Type := {
  distortedPoint : Vec2;
  undistortedPoint : Vec2
}.

(** ** Line extractor *)

Module Lines.

(** [corners[idx]]: the source indexes the vector unchecked; the detector
    only stores indices of corners it holds. Out of range the model
    reads a corner at the origin. *)
Definition cornerAt (corners : list CheckerBoardCorner) (idx : IndexT)
  : CheckerBoardCorner :=
  nth (N.to_nat idx) corners {| center := (0%float, 0%float) |}.

(** One inner loop of the extractor. [ks] are the values the loop
    counter takes, [stop k] is the [break] test and [at_ k] the cell read
    at counter [k]; an undefined cell is skipped ([continue]), a defined
    one appends its corner's centre. *)
Fixpoint scan (corners : list CheckerBoardCorner)
    (stop : nat -> bool) (at_ : nat -> IndexT)
    (ks : list nat) (pts : list Vec2) : list Vec2 :=
  match ks with
  | [] => pts
  | k :: ks' =>
      if stop k then pts
      else
        let idx := at_ k in
        if (idx =? UndefinedIndexT)%N then scan corners stop at_ ks' pts
        else scan corners stop at_ ks' (pts ++ [center (cornerAt corners idx)])
  end.

Definition never (_ : nat) : bool := false.

Definition newLine (horiz : bool) (idx boardIdx : nat) (pts : list Vec2)
  : LineWithPoints :=
  {| angle := M_PI_4; dist := 1%float; horizontal := horiz;
     index := idx; board := boardIdx; points := pts |}.

(** Horizontal line of row [i]. *)
Definition rowLine corners (b : CheckerBoard) (boardIdx i : nat) :=
  newLine true i boardIdx
    (scan corners never (fun j => cell b i j) (seq 0 (cols b)) []).

(** Vertical line of column [j]. *)
Definition colLine corners (b : CheckerBoard) (boardIdx j : nat) :=
  newLine false j boardIdx
    (scan corners never (fun i => cell b i j) (seq 0 (rows b)) []).

(** Diagonal 1, started at row [i]. *)
Definition diag1Line corners (b : CheckerBoard) (boardIdx i : nat) :=
  newLine false i boardIdx
    (scan corners (fun j => rows b <=? i + j) (fun j => cell b (i + j) j)
       (seq 0 (cols b)) []).

(** Diagonal 2, started at column [j]. *)
Definition diag2Line corners (b : CheckerBoard) (boardIdx j : nat) :=
  newLine false j boardIdx
    (scan corners (fun i => cols b <=? i + j) (fun i => cell b i (i + j))
       (seq 0 (rows b)) []).

(** Diagonal 3, started at column [j], walking up from the last row. *)
Definition diag3Line corners (b : CheckerBoard) (boardIdx j : nat) :=
  newLine false j boardIdx
    (scan corners (fun i => cols b <=? i + j)
       (fun i => cell b (rows b - 1 - i) (i + j))
       (seq 0 (rows b)) []).

(** The size test at the end of each outer iteration. *)
Definition emit (lineWithPoints : list LineWithPoints) (line : LineWithPoints)
  : list LineWithPoints :=
  if length (points line) <? 10 then lineWithPoints
  else lineWithPoints ++ [line].

(** An outer loop: counter from [0] to [n - 1]. *)
Definition family (mk : nat -> LineWithPoints) (n : nat)
    (lineWithPoints : list LineWithPoints) : list LineWithPoints :=
  fold_left (fun acc k => emit acc (mk k)) (seq 0 n) lineWithPoints.

(** The body of [for (auto& b : boards)]. *)
Definition boardLines corners (b : CheckerBoard) (boardIdx : nat)
    (lineWithPoints : list LineWithPoints) : list LineWithPoints :=
  let l := family (rowLine corners b boardIdx) (rows b) lineWithPoints in
  let l := family (colLine corners b boardIdx) (cols b) l in
  let l := family (diag1Line corners b boardIdx) (rows b) l in
  let l := family (diag2Line corners b boardIdx) (cols b) l in
  family (diag3Line corners b boardIdx) (cols b) l.

Fixpoint boardsLoop corners (boards : list CheckerBoard) (boardIdx : nat)
    (lineWithPoints : list LineWithPoints) : list LineWithPoints :=
  match boards with
  | [] => lineWithPoints
  | b :: boards' =>
      boardsLoop corners boards' (S boardIdx)
        (boardLines corners b boardIdx lineWithPoints)
  end.

End Lines.

(** [retrieveLines]: the returned flag and the final content of the output
    vector, which the function clears first. *)
Definition retrieveLines (detect : CheckerDetector)
  : bool * list LineWithPoints :=
  let corners := getCorners detect in
  let boards := getBoards detect in
  let lineWithPoints := Lines.boardsLoop corners boards 0 [] in
  if length lineWithPoints <? 2 then (false, lineWithPoints)
  else (true, lineWithPoints).

(** ** Cameras and scene data *)

(** Modelled from the spec: the camera classes are declared in the camera
    library, outside this file's sources. The spec (design notes) reads
    the driver's [dynamic_pointer_cast] tests as a dispatch on a tagged
    variant of five distortion models; [PinholeOther] and [NonPinhole]
    stand for the intrinsics on which all five tests fail, with and
    without the cast to [camera::Pinhole] succeeding. *)
Inductive IntrinsicClass : Type :=
  | PinholeRadialK1
  | PinholeRadialK3
  | Pinhole3DERadial4
  | Pinhole3DEAnamorphic4
  | Pinhole3DEClassicLD
  | PinholeOther   (* camera::Pinhole itself or another class derived from it *)
  | NonPinhole.    (* an IntrinsicBase that is not a camera::Pinhole *)

Record IntrinsicBase : Type := {
  dynamicClass : IntrinsicClass;
  w : N;
  h : N;
  getScale : Vec2;
  getOffset : Vec2;
  getDistortionParams : list double
}.

Definition setScale (s : Vec2) (c : IntrinsicBase) : IntrinsicBase :=
  {| dynamicClass := dynamicClass c; w := w c; h := h c;
     getScale := s; getOffset := getOffset c;
     getDistortionParams := getDistortionParams c |}.

Definition setDistortionParams (p : list double) (c : IntrinsicBase)
  : IntrinsicBase :=
  {| dynamicClass := dynamicClass c; w := w c; h := h c;
     getScale := getScale c; getOffset := getOffset c;
     getDistortionParams := p |}.

(** [std::dynamic_pointer_cast<camera::Pinhole>] yields a non-null pointer. *)
Definition isPinhole (c : IntrinsicBase) : bool :=
  match dynamicClass c with
  | NonPinhole => false
  | _ => true
  end.

(** The conversion of an [unsigned int] to [double] (exact). *)
Definition toDouble (n : N) : double :=
  PrimFloat.of_uint63 (Uint63.of_Z (Z.of_N n)).

Record Statistics : Type := {
  mean : double;
  stddev : double;
  median : double
}.

(** [calibration::Statistics statistics;]: the fields are only written by
    the solver and streamed to the log. *)
Definition newStatistics : Statistics :=
  {| mean := 0%float; stddev := 0%float; median := 0%float |}.

Record View : Type := { getIntrinsicId : IndexT }.

(** The two maps of the scene that the driver walks, each as the list of
    its entries in iteration order. *)
Record SfMData : Type := {
  getViews : list (IndexT * View);
  getIntrinsics : list (IndexT * IntrinsicBase)
}.

(** ** What a run does that can be observed *)

(** A log line carries the string literal its text starts with (what is
    streamed after that literal is dropped, except the intrinsic's id in
    [PROCESSING]); a call to the solver records the
    lock arguments it received, the camera before and after, and its
    result; [SAVE] is the call of [sfmDataIO::Save] with what it was given
    to write. *)
Inductive Event : Type :=
  | LOG_ERROR (msg : string)
  | LOG_INFO (msg : string)
  | PROCESSING (intrinsicId : IndexT)
  | ESTIMATE (lockScale lockOffset : bool) (locksDistortions : list bool)
             (lockLines : bool) (before after : IntrinsicBase) (ok : bool)
  | SAVE (data : SfMData) (ok : bool).

Definition isEstimate (e : Event) : bool :=
  match e with
  | ESTIMATE _ _ _ _ _ _ _ => true
  | _ => false
  end.

(** The state one of the [estimateDistortion*] templates works on: the
    camera and statistics it receives by reference, the items, and the
    trace so far. *)
Record Calib (T : Type) : Type := {
  camera : IntrinsicBase;
  statistics : Statistics;
  items : list T;
  trace : list Event
}.
Arguments camera {T} _.
Arguments statistics {T} _.
Arguments items {T} _.
Arguments trace {T} _.

Definition log {T} (e : Event) (st : Calib T) : Calib T :=
  {| camera := camera st; statistics := statistics st;
     items := items st; trace := trace st ++ [e] |}.

Definition withCamera {T} (f : IntrinsicBase -> IntrinsicBase) (st : Calib T)
  : Calib T :=
  {| camera := f (camera st); statistics := statistics st;
     items := items st; trace := trace st |}.

(** A step that returns a flag and the state it leaves. *)
Definition Step (T : Type) : Type := Calib T -> bool * Calib T.

(** [m ;; k]: run [m]; when it reports [false] the enclosing function
    returns [false] at once, otherwise go on with [k]. *)
Definition andThen {T} (m k : Step T) : Step T :=
  fun st => let (ok, st') := m st in if ok then k st' else (false, st').

Definition ret {T} (b : bool) : Step T := fun st => (b, st).

Declare Scope step_scope.
Delimit Scope step_scope with step.
Notation "m ;; k" := (andThen m k)
  (at level 100, k at level 200, right associativity) : step_scope.

(** The type of [calibration::estimate(camera, statistics, items,
    lockScale, lockOffset, locksDistortions, lockLines)]: the flag it
    returns and what it leaves in the three objects passed by reference.
    Its declaration is outside this file's sources; the last argument is
    named as the spec names it. *)
Definition Estimator (T : Type) : Type :=
  IntrinsicBase -> Statistics -> list T ->
  bool -> bool -> list bool -> bool ->
  bool * (IntrinsicBase * Statistics * list T).

(** ** The staged schedules *)

Section Schedules.
Context {T : Type}.
Variable estimate : Estimator T.

Local Open Scope step_scope.

(** [if (!calibration::estimate(...)) { LOG_ERROR("Failed to calibrate");
    return false; }] *)
Definition tryEstimate (lockScale lockOffset : bool)
    (locksDistortions : list bool) (lockLines : bool) : Step T :=
  fun st =>
    let '(ok, (cam', stats', items')) :=
      estimate (camera st) (statistics st) (items st)
               lockScale lockOffset locksDistortions lockLines in
    let st' :=
      {| camera := cam'; statistics := stats'; items := items';
         trace := trace st ++
           [ESTIMATE lockScale lockOffset locksDistortions lockLines
                     (camera st) cam' ok] |} in
    if negb ok then (false, log (LOG_ERROR "Failed to calibrate") st')
    else (true, st').

Definition estimateDistortionK1 : Step T :=
  let locksDistortions := [true] in
  (* Everything locked except lines parameters *)
  let locksDistortions := <[0 := true]> locksDistortions in
  tryEstimate true true locksDistortions false ;;
  (* Relax distortion 1st order *)
  let locksDistortions := <[0 := false]> locksDistortions in
  tryEstimate true true locksDistortions false ;;
  (* Relax offcenter *)
  let locksDistortions := <[0 := false]> locksDistortions in
  tryEstimate true false locksDistortions false ;;
  ret true.

Definition estimateDistortionK3 : Step T :=
  let locksDistortions := [true; true; true] in
  let locksDistortions := <[0 := true]> locksDistortions in
  tryEstimate true true locksDistortions false ;;
  let locksDistortions := <[0 := false]> locksDistortions in
  tryEstimate true true locksDistortions false ;;
  let locksDistortions := <[0 := false]> locksDistortions in
  tryEstimate true false locksDistortions false ;;
  let locksDistortions := <[0 := false]> locksDistortions in
  let locksDistortions := <[1 := false]> locksDistortions in
  let locksDistortions := <[2 := false]> locksDistortions in
  tryEstimate true false locksDistortions false ;;
  ret true.

Definition estimateDistortion3DER4 : Step T :=
  let locksDistortions := [true; true; true; true; true; true] in
  let locksDistortions := <[0 := true]> locksDistortions in
  tryEstimate true true locksDistortions false ;;
  let locksDistortions := <[0 := false]> locksDistortions in
  tryEstimate true true locksDistortions false ;;
  let locksDistortions := <[0 := false]> locksDistortions in
  tryEstimate true false locksDistortions false ;;
  let locksDistortions := <[0 := false]> locksDistortions in
  let locksDistortions := <[1 := false]> locksDistortions in
  let locksDistortions := <[2 := false]> locksDistortions in
  let locksDistortions := <[3 := false]> locksDistortions in
  let locksDistortions := <[4 := false]> locksDistortions in
  let locksDistortions := <[5 := false]> locksDistortions in
  tryEstimate true false locksDistortions false ;;
  ret true.

(** The assignments to [params] at the head of
    [estimateDistortion3DEA4]. An assignment past the end of the vector
    is undefined in the source and leaves the list as it is here. *)
Definition initParams3DEA4 (params : list double) : list double :=
  let params := <[0 := 0%float]> params in
  let params := <[1 := 0%float]> params in
  let params := <[2 := 0%float]> params in
  let params := <[3 := 0%float]> params in
  let params := <[5 := 0%float]> params in
  let params := <[6 := 0%float]> params in
  let params := <[7 := 0%float]> params in
  let params := <[8 := 0%float]> params in
  let params := <[9 := 0%float]> params in
  let params := <[10 := 0%float]> params in
  let params := <[11 := 1%float]> params in
  let params := <[12 := 1%float]> params in
  let params := <[13 := 1%float]> params in
  params.

Definition estimateDistortion3DEA4 : Step T :=
  fun st =>
  let params := getDistortionParams (camera st) in
  let params := initParams3DEA4 params in
  let st := withCamera (setDistortionParams params) st in
  let locksDistortions :=
    [true; true; true; true; true; true; true;
     true; true; true; true; true; true; true] in
  (* Everything locked except lines parameters *)
  let locksDistortions := <[0 := true]> locksDistortions in
  (tryEstimate true true locksDistortions false ;;
   (* Relax offcenter *)
   tryEstimate true false locksDistortions false ;;
   let locksDistortions := <[0 := false]> locksDistortions in
   let locksDistortions := <[1 := false]> locksDistortions in
   let locksDistortions := <[2 := false]> locksDistortions in
   let locksDistortions := <[3 := false]> locksDistortions in
   tryEstimate true false locksDistortions true ;;
   let locksDistortions := <[4 := false]> locksDistortions in
   let locksDistortions := <[5 := false]> locksDistortions in
   let locksDistortions := <[6 := false]> locksDistortions in
   let locksDistortions := <[7 := false]> locksDistortions in
   let locksDistortions := <[8 := false]> locksDistortions in
   let locksDistortions := <[9 := false]> locksDistortions in
   tryEstimate true false locksDistortions true ;;
   let locksDistortions := <[0 := false]> locksDistortions in
   let locksDistortions := <[1 := false]> locksDistortions in
   let locksDistortions := <[2 := false]> locksDistortions in
   let locksDistortions := <[3 := false]> locksDistortions in
   let locksDistortions := <[4 := false]> locksDistortions in
   let locksDistortions := <[5 := false]> locksDistortions in
   let locksDistortions := <[6 := false]> locksDistortions in
   let locksDistortions := <[7 := false]> locksDistortions in
   let locksDistortions := <[8 := false]> locksDistortions in
   let locksDistortions := <[9 := false]> locksDistortions in
   let locksDistortions := <[10 := false]> locksDistortions in
   let locksDistortions := <[11 := false]> locksDistortions in
   let locksDistortions := <[12 := true]> locksDistortions in
   let locksDistortions := <[13 := true]> locksDistortions in
   tryEstimate true false locksDistortions true ;;
   ret true) st.

(** The assignments to [params] at the head of
    [estimateDistortion3DELD]. *)
Definition initParams3DELD (params : list double) : list double :=
  let params := <[0 := 0%float]> params in
  let params := <[1 := M_PI_2]> params in
  let params := <[2 := 0%float]> params in
  let params := <[3 := 0%float]> params in
  let params := <[4 := 0%float]> params in
  params.

Definition estimateDistortion3DELD : Step T :=
  fun st =>
  let params := getDistortionParams (camera st) in
  let params := initParams3DELD params in
  let st := withCamera (setDistortionParams params) st in
  let locksDistortions := [true; true; true; true; true] in
  (* Everything locked except lines parameters *)
  let locksDistortions := <[0 := true]> locksDistortions in
  (tryEstimate true true locksDistortions false ;;
   (* Relax distortion 1st order *)
   let locksDistortions := <[0 := false]> locksDistortions in
   tryEstimate true true locksDistortions false ;;
   (* Relax offcenter *)
   let locksDistortions := <[0 := false]> locksDistortions in
   tryEstimate true false locksDistortions false ;;
   let locksDistortions := <[0 := false]> locksDistortions in
   let locksDistortions := <[1 := true]> locksDistortions in
   let locksDistortions := <[2 := false]> locksDistortions in
   let locksDistortions := <[3 := false]> locksDistortions in
   let locksDistortions := <[4 := true]> locksDistortions in
   tryEstimate true false locksDistortions false ;;
   let locksDistortions := <[0 := false]> locksDistortions in
   let locksDistortions := <[1 := false]> locksDistortions in
   let locksDistortions := <[2 := false]> locksDistortions in
   let locksDistortions := <[3 := false]> locksDistortions in
   let locksDistortions := <[4 := false]> locksDistortions in
   tryEstimate true false locksDistortions true ;;
   ret true) st.

(** [if (!estimateDistortionX(...)) { LOG_ERROR(msg); continue; }]: the
    flag is [false] when the loop body is left by [continue]. *)
Definition orContinue (msg : string) (m : Step T) : Step T :=
  fun st =>
    let (ok, st') := m st in
    if negb ok then (false, log (LOG_ERROR msg) st') else (true, st').

(** The chain of [dynamic_pointer_cast] tests that picks the schedule. *)
Definition dispatch (msg : string) : Step T :=
  fun st =>
    match dynamicClass (camera st) with
    | PinholeRadialK1 => orContinue msg estimateDistortionK1 st
    | PinholeRadialK3 => orContinue msg estimateDistortionK3 st
    | Pinhole3DERadial4 => orContinue msg estimateDistortion3DER4 st
    | Pinhole3DEAnamorphic4 => orContinue msg estimateDistortion3DEA4 st
    | Pinhole3DEClassicLD => orContinue msg estimateDistortion3DELD st
    | _ => (true, log (LOG_ERROR "Incompatible camera distortion model") st)
    end.

End Schedules.

(** ** Loading the detector files *)

(** What reading [checkers_<viewId>.json] gives: the file cannot be
    opened, or [boost::json::parse] / [value_to] throws on its content, or
    a detector comes out. *)
Inductive DetectorFile : Type :=
  | FileMissing
  | FileMalformed
  | FileDetector (detector : CheckerDetector).

(** The loop that fills [boardsAllImages], one file per view. [None] is
    an exception leaving [aliceVision_main], which has no handler around
    the parse. *)
Fixpoint loadBoards (readFile : IndexT -> DetectorFile)
    (views : list (IndexT * View))
    (boardsAllImages : gmap N CheckerDetector)
  : option (gmap N CheckerDetector) :=
  match views with
  | [] => Some boardsAllImages
  | pv :: views' =>
      let viewId := fst pv in
      match readFile viewId with
      | FileMissing => loadBoards readFile views' boardsAllImages
      | FileMalformed => None
      | FileDetector detector =>
          loadBoards readFile views' (<[viewId := detector]> boardsAllImages)
      end
  end.

(** How [aliceVision_main] ends: it returns a status, or an exception
    leaves it. *)
Inductive Outcome : Type :=
  | Exit (status : Z)
  | Uncaught.

(** ** Point generation and the driver *)

Section Driver.
(** [camera->get_d_pixel] and [camera->get_ud_pixel], and the two
    instances of the solver: on lines and on point pairs. *)
Variable get_d_pixel : IntrinsicBase -> Vec2 -> Vec2.
Variable get_ud_pixel : IntrinsicBase -> Vec2 -> Vec2.
Variable estimateLines : Estimator LineWithPoints.
Variable estimatePoints : Estimator PointPair.

(** The pair built for a corner [pt]. *)
Definition makePair (cam : IntrinsicBase) (pt : Vec2) : PointPair :=
  {| distortedPoint := pt; undistortedPoint := get_d_pixel cam pt |}.

(** [err] of the source: the norm of
    [get_ud_pixel(pp.undistortedPoint) - pp.distortedPoint]. *)
Definition roundTripError (cam : IntrinsicBase) (pp : PointPair) : double :=
  Vec.norm (Vec.sub (get_ud_pixel cam (undistortedPoint pp))
                    (distortedPoint pp)).

(** The [double] that the literal [1e-3] denotes. *)
Definition roundTripBound : double := 0x1.0624dd2f1a9fcp-10%float.

(** The body of the inner loop: [if (err > 1e-3) continue;] and then
    [points.push_back(pp)]. *)
Definition pushPoint (cam : IntrinsicBase)
    (pts : list PointPair) (pt : Vec2) : list PointPair :=
  let pp := makePair cam pt in
  let err := roundTripError cam pp in
  if (roundTripBound <? err)%float then pts else pts ++ [pp].

Definition generatePoints (pts : list PointPair) (cam : IntrinsicBase)
    (lineWithPoints : list LineWithPoints) : bool * list PointPair :=
  (true,
   fold_left (fun acc l => fold_left (pushPoint cam) (points l) acc)
             lineWithPoints pts).

(** The loop over the views that fills [allLinesWithPoints]. *)
Definition gatherLines (views : list (IndexT * View))
    (boardsAllImages : gmap N CheckerDetector) (intrinsicId : IndexT)
  : list LineWithPoints :=
  fold_left
    (fun allLinesWithPoints (pv : IndexT * View) =>
       if negb (getIntrinsicId (snd pv) =? intrinsicId)%N
       then allLinesWithPoints
       else
         let (ok, linesWithPoints) :=
           retrieveLines (default emptyDetector (boardsAllImages !! fst pv)) in
         if negb ok then allLinesWithPoints
         else allLinesWithPoints ++ linesWithPoints)
    views [].

Definition logQuality {T} (title : string) (st : Calib T) : Calib T :=
  log (LOG_INFO "Median of error: ")
    (log (LOG_INFO "Mean of error (stddev): ")
       (log (LOG_INFO title) st)).

(** From the computation of [diag] to [cameraPinhole->setScale(scale)]:
    the flag is [false] when the body was left by [continue] before the
    scale was put back. *)
Definition forwardFit (cameraPinhole : IntrinsicBase)
    (allLinesWithPoints : list LineWithPoints) (tr : list Event)
  : bool * Calib LineWithPoints :=
  let hw := (toDouble (w cameraPinhole) * 0.5)%float in
  let hh := (toDouble (h cameraPinhole) * 0.5)%float in
  let diag := PrimFloat.sqrt (hw * hw + hh * hh)%float in
  let scale := getScale cameraPinhole in
  let cameraPinhole := setScale (diag, diag) cameraPinhole in
  let st := {| camera := cameraPinhole; statistics := newStatistics;
               items := allLinesWithPoints; trace := tr |} in
  let (ok, st) := dispatch estimateLines "Error estimating distortion" st in
  if negb ok then (false, st)
  else
    let st := logQuality "Result quality of calibration: " st in
    (true, withCamera (setScale scale) st).

(** From [generatePoints] to the end of the loop body. *)
Definition inverseFit (st : Calib LineWithPoints) : Calib PointPair :=
  let (ok, pts) := generatePoints [] (camera st) (items st) in
  let st' := {| camera := camera st; statistics := statistics st;
                items := pts; trace := trace st |} in
  if negb ok then log (LOG_ERROR "Error generating points") st'
  else
    let (ok, st') :=
      dispatch estimatePoints "Error estimating reverse distortion" st' in
    if negb ok then st'
    else logQuality "Result quality of inversion: " st'.

(** The body of the loop over the intrinsics, for a pinhole camera: the
    camera it leaves in the scene and the trace. *)
Definition calibrateIntrinsic (views : list (IndexT * View))
    (boardsAllImages : gmap N CheckerDetector)
    (intrinsicId : IndexT) (cameraPinhole : IntrinsicBase)
    (tr : list Event) : IntrinsicBase * list Event :=
  let tr := tr ++ [PROCESSING intrinsicId] in
  let allLinesWithPoints := gatherLines views boardsAllImages intrinsicId in
  let (ok, st) := forwardFit cameraPinhole allLinesWithPoints tr in
  if negb ok then (camera st, trace st)
  else let st' := inverseFit st in (camera st', trace st').

(** The loop over the intrinsics. [None] is [return EXIT_FAILURE] from
    inside the loop; otherwise the intrinsics as the loop leaves them. *)
Fixpoint intrinsicsLoop (views : list (IndexT * View))
    (boardsAllImages : gmap N CheckerDetector)
    (todo : list (IndexT * IntrinsicBase)) (tr : list Event)
  : option (list (IndexT * IntrinsicBase)) * list Event :=
  match todo with
  | [] => (Some [], tr)
  | (intrinsicId, intrinsicPtr) :: todo' =>
      if negb (isPinhole intrinsicPtr)
      then (None, tr ++ [LOG_ERROR "Only work for pinhole cameras"])
      else
        let (cam', tr') :=
          calibrateIntrinsic views boardsAllImages intrinsicId intrinsicPtr tr in
        let (r, tr'') := intrinsicsLoop views boardsAllImages todo' tr' in
        (option_map (cons (intrinsicId, cam')) r, tr'')
  end.

(** [aliceVision_main] once the command line is parsed. [load] is what
    [sfmDataIO::Load] produced ([None]: the file cannot be read),
    [readFile] what reading the detector file of a view gives, [save] the
    outcome of [sfmDataIO::Save] on the data it is given. The result is
    how the function ends and the trace. *)
Definition aliceVision_main (load : option SfMData)
    (readFile : IndexT -> DetectorFile) (save : SfMData -> bool)
  : Outcome * list Event :=
  match load with
  | None => (Exit EXIT_FAILURE, [LOG_ERROR "The input SfMData file '"])
  | Some sfmData =>
      match loadBoards readFile (getViews sfmData) ∅ with
      | None => (Uncaught, [])
      | Some boardsAllImages =>
          match intrinsicsLoop (getViews sfmData) boardsAllImages
                  (getIntrinsics sfmData) [] with
          | (None, tr) => (Exit EXIT_FAILURE, tr)
          | (Some intrinsics', tr) =>
              let sfmData' := {| getViews := getViews sfmData;
                                 getIntrinsics := intrinsics' |} in
              if negb (save sfmData')
              then (Exit EXIT_FAILURE,
                    tr ++ [SAVE sfmData' false;
                           LOG_ERROR "The output SfMData file '"])
              else (Exit EXIT_SUCCESS, tr ++ [SAVE sfmData' true])
          end
      end
  end.

End Driver.

(** ** Vocabulary of the statements *)

Module Spec.

(** A cell that holds a corner index. *)
Definition defined (idx : IndexT) : bool := negb (idx =? UndefinedIndexT)%N.

(** The counter values an inner loop reaches before its [break]. *)
Fixpoint visited (stop : nat -> bool) (ks : list nat) : list nat :=
  match ks with
  | [] => []
  | k :: ks' => if stop k then [] else k :: visited stop ks'
  end.

(** The cells [(k, k)] with [k < min rows cols]. *)
Definition mainDiagonal (b : CheckerBoard) : list (nat * nat) :=
  map (fun k => (k, k)) (seq 0 (Nat.min (rows b) (cols b))).

(** The centres of the defined corners among [cells], in order. *)
Definition centres (corners : list CheckerBoardCorner) (b : CheckerBoard)
    (cells : list (nat * nat)) : list Vec2 :=
  map (fun idx => center (Lines.cornerAt corners idx))
      (List.filter defined (map (fun c => cell b (fst c) (snd c)) cells)).

(** A candidate line passes the size test of the extractor. *)
Definition kept (l : LineWithPoints) : bool :=
  negb (length (points l) <? 10).

(** The test [err > 1e-3] of [generatePoints] is false for the pair. *)
Definition accepted (get_ud_pixel : IntrinsicBase -> Vec2 -> Vec2)
    (cam : IntrinsicBase) (pp : PointPair) : bool :=
  negb (roundTripBound <? roundTripError get_ud_pixel cam pp)%float.

(** A line satisfies the extractor's promise. *)
Definition wellFormedLine (l : LineWithPoints) : Prop :=
  10 <= length (points l) /\ angle l = M_PI_4 /\ dist l = 1%float.

(** The solver calls of a trace, in order. *)
Definition estimateCalls (tr : list Event) : list Event :=
  List.filter isEstimate tr.


Definition paramsBefore (e : Event) : list double :=
  match e with
  | ESTIMATE _ _ _ _ before _ _ => getDistortionParams before
  | _ => []
  end.

Definition paramsAfter (e : Event) : list double :=
  match e with
  | ESTIMATE _ _ _ _ _ after _ => getDistortionParams after
  | _ => []
  end.

(** The solver leaves every distortion parameter alone whose lock is set
    (invariant 4 of the spec's testable properties). *)
Definition respectsLocks {T} (estimate : Estimator T) : Prop :=
  forall cam stats its lockScale lockOffset locks lockLines (i : nat),
    locks !! i = Some true ->
    getDistortionParams
      (fst (fst (snd (estimate cam stats its lockScale lockOffset locks lockLines))))
      !! i
    = getDistortionParams cam !! i.

(** A step only appends to the trace, and every event it appends
    satisfies [P]. *)
Definition emits {T} (P : Event -> Prop) (m : Step T) : Prop :=
  forall st, exists more,
    trace (snd (m st)) = trace st ++ more /\ Forall P more.

(** Any event but the log line of the driver's point-generation error
    branch. *)
Definition notPointError (e : Event) : Prop :=
  e <> LOG_ERROR "Error generating points".

(** The first event a step appends is a call to the solver. *)
Definition callsSolverFirst {T} (m : Step T) : Prop :=
  forall st, exists e more,
    isEstimate e = true /\ trace (snd (m st)) = trace st ++ e :: more.

(** What one view adds to the lines of intrinsic [intrinsicId]: the
    lines of its detector when the view uses that intrinsic and
    [retrieveLines] returned [true], nothing otherwise. *)
Definition viewLines (boardsAllImages : gmap N CheckerDetector)
    (intrinsicId : IndexT) (pv : IndexT * View) : list LineWithPoints :=
  let r := retrieveLines (default emptyDetector (boardsAllImages !! fst pv)) in
  if (getIntrinsicId (snd pv) =? intrinsicId)%N && fst r then snd r else [].

(** The solver leaves the pixel scale alone (every call of the driver
    passes [lockScale = true]). *)
Definition keepsScale {T} (estimate : Estimator T) : Prop :=
  forall cam stats its lockScale lockOffset locks lockLines,
    getScale
      (fst (fst (snd (estimate cam stats its lockScale lockOffset locks lockLines))))
    = getScale cam.

(** A step leaves the camera's pixel scale as it found it. *)
Definition scaleStable {T} (m : Step T) : Prop :=
  forall st, getScale (camera (snd (m st))) = getScale (camera st).

(** [diag] of the driver for a camera. *)
Definition diagOf (cam : IntrinsicBase) : double :=
  let hw := (toDouble (w cam) * 0.5)%float in
  let hh := (toDouble (h cam) * 0.5)%float in
  PrimFloat.sqrt (hw * hw + hh * hh)%float.

(** The five distortion classes the driver has a schedule for. *)
Definition hasSchedule (c : IntrinsicClass) : bool :=
  match c with
  | PinholeRadialK1 | PinholeRadialK3 | Pinhole3DERadial4
  | Pinhole3DEAnamorphic4 | Pinhole3DEClassicLD => true
  | _ => false
  end.

End Spec.

(** ** Concrete inputs *)

Module Fixtures.

(** A pinhole camera's pixel maps when its distortion is the identity:
    to camera coordinates and back. *)
Definition ima2cam (cam : IntrinsicBase) (p : Vec2) : Vec2 :=
  (((fst p - (toDouble (w cam) * 0.5 + fst (getOffset cam)))
      / fst (getScale cam))%float,
   ((snd p - (toDouble (h cam) * 0.5 + snd (getOffset cam)))
      / snd (getScale cam))%float).

Definition cam2ima (cam : IntrinsicBase) (p : Vec2) : Vec2 :=
  ((fst p * fst (getScale cam)
      + (toDouble (w cam) * 0.5 + fst (getOffset cam)))%float,
   (snd p * snd (getScale cam)
      + (toDouble (h cam) * 0.5 + snd (getOffset cam)))%float).

Definition pixelIdentity (cam : IntrinsicBase) (p : Vec2) : Vec2 :=
  cam2ima cam (ima2cam cam p).

(** A solver that fails at once and touches nothing. *)
Definition estimateFails {T} : Estimator T :=
  fun cam stats its _ _ _ _ => (false, (cam, stats, its)).

(** A solver that succeeds and moves every unlocked distortion parameter
    (it adds one to it), leaving the locked ones alone. *)
Fixpoint nudge (locks : list bool) (params : list double) {struct params}
  : list double :=
  match params with
  | [] => []
  | p :: params' =>
      match locks with
      | false :: locks' => (p + 1)%float :: nudge locks' params'
      | true :: locks' => p :: nudge locks' params'
      | [] => p :: params'
      end
  end.

Definition estimateNudges {T} : Estimator T :=
  fun cam stats its _ _ locks _ =>
    (true, (setDistortionParams (nudge locks (getDistortionParams cam)) cam,
            stats, its)).

Definition mkCamera (c : IntrinsicClass) (params : list double)
  : IntrinsicBase :=
  {| dynamicClass := c; w := 1920%N; h := 1080%N;
     getScale := (1000%float, 1000%float);
     getOffset := (0%float, 0%float);
     getDistortionParams := params |}.

(** A board of [r x c] cells, all defined, numbered row by row, and the
    corners it points to, laid out on the unit grid. *)
Definition fullBoard (r c : nat) : CheckerBoard :=
  {| rows := r; cols := c; cell := fun i j => N.of_nat (i * c + j) |}.

Definition gridCorners (r c : nat) : list CheckerBoardCorner :=
  map (fun k => {| center := (toDouble (N.of_nat (k mod c)),
                              toDouble (N.of_nat (k / c))) |})
      (seq 0 (r * c)).

Definition detector (r c : nat) : CheckerDetector :=
  {| getCorners := gridCorners r c; getBoards := [fullBoard r c] |}.

(** A board whose only row has ten corners. *)
Definition oneRow : CheckerDetector := detector 1 10.

Definition view (intrinsicId : IndexT) : View :=
  {| getIntrinsicId := intrinsicId |}.

(** One radial-K1 camera, no view. *)
Definition sceneK1 : SfMData :=
  {| getViews := [];
     getIntrinsics := [(0%N, mkCamera PinholeRadialK1 [0%float])] |}.

(** An equidistant (non-pinhole) intrinsic followed by a radial-K1 one. *)
Definition sceneMixed : SfMData :=
  {| getViews := [];
     getIntrinsics := [(0%N, mkCamera NonPinhole [0%float]);
                       (1%N, mkCamera PinholeRadialK1 [0%float])] |}.

(** One radial-K1 camera seen by one view (id 7), whose detector file
    holds a single 3 x 3 board. *)
Definition sceneSmallBoard : SfMData :=
  {| getViews := [(7%N, view 0%N)];
     getIntrinsics := [(0%N, mkCamera PinholeRadialK1 [0%float])] |}.

Definition boardsSmallBoard : gmap N CheckerDetector :=
  {[ 7%N := detector 3 3 ]}.

(** No view has a detector file. *)
Definition noFiles (_ : IndexT) : DetectorFile := FileMissing.

(** The detector file of view 7 holds the 3 x 3 board; no other file. *)
Definition filesSmallBoard (viewId : IndexT) : DetectorFile :=
  if (viewId =? 7)%N then FileDetector (detector 3 3) else FileMissing.

Definition saveWorks (_ : SfMData) : bool := true.

End Fixtures.

(** ** Vocabulary of the further statements *)

Module Cover.

(** A line of the output, read against the board [b] it names: its index
    and its number of points are bounded by the board's sides, and each of
    its points is the centre of the corner that a defined cell inside the
    board points to. *)
Definition fromBoard (corners : list CheckerBoardCorner) (b : CheckerBoard)
    (l : LineWithPoints) : Prop :=
  index l < Nat.max (rows b) (cols b)
  /\ length (points l) <= Nat.max (rows b) (cols b)
  /\ Forall (fun p => exists i j,
                i < rows b /\ j < cols b
                /\ Spec.defined (cell b i j) = true
                /\ p = center (Lines.cornerAt corners (cell b i j)))
            (points l).

(** Every cell inside the board holds a corner index. *)
Definition fullyDefined (b : CheckerBoard) : Prop :=
  forall i j, i < rows b -> j < cols b -> Spec.defined (cell b i j) = true.

(** The lock arguments of the solver calls of a trace, in order:
    [(lockScale, lockOffset, locksDistortions, lockLines)]. *)
Definition callArgs (tr : list Event) : list (bool * bool * list bool * bool) :=
  flat_map (fun e => match e with
                     | ESTIMATE ls lo lk ll _ _ _ => [(ls, lo, lk, ll)]
                     | _ => []
                     end) tr.

(** The stages of each model's schedule, as the source passes them. *)
Definition scheduleTable (c : IntrinsicClass)
  : list (bool * bool * list bool * bool) :=
  match c with
  | PinholeRadialK1 =>
      [(true, true, [true], false);
       (true, true, [false], false);
       (true, false, [false], false)]
  | PinholeRadialK3 =>
      [(true, true, [true; true; true], false);
       (true, true, [false; true; true], false);
       (true, false, [false; true; true], false);
       (true, false, [false; false; false], false)]
  | Pinhole3DERadial4 =>
      [(true, true, [true; true; true; true; true; true], false);
       (true, true, [false; true; true; true; true; true], false);
       (true, false, [false; true; true; true; true; true], false);
       (true, false, [false; false; false; false; false; false], false)]
  | Pinhole3DEAnamorphic4 =>
      [(true, true, repeat true 14, false);
       (true, false, repeat true 14, false);
       (true, false, repeat false 4 ++ repeat true 10, true);
       (true, false, repeat false 10 ++ repeat true 4, true);
       (true, false, repeat false 12 ++ repeat true 2, true)]
  | Pinhole3DEClassicLD =>
      [(true, true, [true; true; true; true; true], false);
       (true, true, [false; true; true; true; true], false);
       (true, false, [false; true; true; true; true], false);
       (true, false, [false; true; false; false; true], false);
       (true, false, [false; false; false; false; false], true)]
  | _ => []
  end.

(** A solver call that returned [false]. *)
Definition failedCall (e : Event) : bool :=
  match e with
  | ESTIMATE _ _ _ _ _ _ ok => negb ok
  | _ => false
  end.

(** The camera a schedule hands to its first solver call. *)
Definition scheduleInit (cam : IntrinsicBase) : IntrinsicBase :=
  match dynamicClass cam with
  | Pinhole3DEAnamorphic4 =>
      setDistortionParams (initParams3DEA4 (getDistortionParams cam)) cam
  | Pinhole3DEClassicLD =>
      setDistortionParams (initParams3DELD (getDistortionParams cam)) cam
  | _ => cam
  end.

(** Each solver call of the trace receives the camera the previous one
    left, the first one receives [cam]. *)
Fixpoint chained (cam : IntrinsicBase) (tr : list Event) : Prop :=
  match tr with
  | [] => True
  | ESTIMATE _ _ _ _ before after _ :: tr' =>
      before = cam /\ chained after tr'
  | _ :: tr' => chained cam tr'
  end.

(** The camera the last solver call of the trace left ([cam] when there
    is none). *)
Fixpoint lastCamera (cam : IntrinsicBase) (tr : list Event) : IntrinsicBase :=
  match tr with
  | [] => cam
  | ESTIMATE _ _ _ _ _ after _ :: tr' => lastCamera after tr'
  | _ :: tr' => lastCamera cam tr'
  end.

(** The ids of the "Processing Intrinsic" lines of a trace, in order. *)
Definition processedIds (tr : list Event) : list IndexT :=
  flat_map (fun e => match e with PROCESSING id => [id] | _ => [] end) tr.

Definition isSave (e : Event) : bool :=
  match e with
  | SAVE _ _ => true
  | _ => false
  end.

Definition isProcessing (e : Event) : bool :=
  match e with
  | PROCESSING _ => true
  | _ => false
  end.

(** A solver call has its scale lock set. *)
Definition scaleLocked (e : Event) : Prop :=
  match e with
  | ESTIMATE lockScale _ _ _ _ _ _ => lockScale = true
  | _ => True
  end.

(** The intrinsics the loop reaches before it meets one that is not a
    pinhole. *)
Fixpoint pinholePrefix (todo : list (IndexT * IntrinsicBase))
  : list (IndexT * IntrinsicBase) :=
  match todo with
  | [] => []
  | p :: todo' => if isPinhole (snd p) then p :: pinholePrefix todo' else []
  end.

(** An event the body of the loop over the intrinsics may append after
    its "Processing Intrinsic" line: a log line or a solver call with the
    scale locked. *)
Definition bodyEvent (e : Event) : Prop :=
  isSave e = false /\ isProcessing e = false /\ scaleLocked e.

End Cover.

(** * Properties *)

(** ** The line extractor *)

Module LinesFacts.
Import Lines Spec.

Lemma fold_emit (mk : nat -> LineWithPoints) ks acc :
  fold_left (fun a k => emit a (mk k)) ks acc
  = acc ++ List.filter kept (List.map mk ks).
Proof.
  revert acc; induction ks as [|k ks IH]; intros acc; simpl.
  - now rewrite app_nil_r.
  - rewrite IH. unfold emit, kept.
    destruct (length (points (mk k)) <? 10); simpl.
    + reflexivity.
    + now rewrite <- app_assoc.
Qed.

Lemma family_app mk n acc :
  family mk n acc = acc ++ family mk n [].
Proof. unfold family. now rewrite !fold_emit. Qed.

Lemma family_nil mk n :
  family mk n [] = List.filter kept (List.map mk (seq 0 n)).
Proof. unfold family. now rewrite fold_emit. Qed.

Lemma boardLines_families corners b k acc :
  boardLines corners b k acc
  = acc ++ family (rowLine corners b k) (rows b) []
    ++ family (colLine corners b k) (cols b) []
    ++ family (diag1Line corners b k) (rows b) []
    ++ family (diag2Line corners b k) (cols b) []
    ++ family (diag3Line corners b k) (cols b) [].
Proof.
  unfold boardLines.
  rewrite (family_app (diag3Line corners b k)).
  rewrite (family_app (diag2Line corners b k)).
  rewrite (family_app (diag1Line corners b k)).
  rewrite (family_app (colLine corners b k)).
  rewrite (family_app (rowLine corners b k)).
  rewrite <- !app_assoc. reflexivity.
Qed.

Lemma boardLines_nil corners b k :
  boardLines corners b k []
  = family (rowLine corners b k) (rows b) []
    ++ family (colLine corners b k) (cols b) []
    ++ family (diag1Line corners b k) (rows b) []
    ++ family (diag2Line corners b k) (cols b) []
    ++ family (diag3Line corners b k) (cols b) [].
Proof. now rewrite boardLines_families. Qed.

Lemma boardLines_app corners b k acc :
  boardLines corners b k acc = acc ++ boardLines corners b k [].
Proof. now rewrite boardLines_nil, boardLines_families. Qed.

Lemma boardsLoop_app corners boards k acc :
  boardsLoop corners boards k acc = acc ++ boardsLoop corners boards k [].
Proof.
  revert k acc; induction boards as [|b boards IH]; intros k acc; simpl.
  - now rewrite app_nil_r.
  - rewrite IH, boardLines_app. symmetry. rewrite IH.
    now rewrite <- app_assoc.
Qed.

(** The lines of the board at position [k] sit, together, inside the
    output. *)
Lemma boardsLoop_lookup corners boards (k : nat) b :
  boards !! k = Some b ->
  forall k0, exists pre post,
    boardsLoop corners boards k0 []
    = pre ++ boardLines corners b (k0 + k) [] ++ post.
Proof.
  revert k; induction boards as [|b0 boards IH]; intros k Hk k0.
  - discriminate.
  - simpl. rewrite boardsLoop_app. destruct k as [|k]; simpl in Hk.
    + injection Hk as ->. exists [], (boardsLoop corners boards (S k0) []).
      now rewrite Nat.add_0_r.
    + destruct (IH k Hk (S k0)) as (pre & post & E).
      exists (boardLines corners b0 k0 [] ++ pre), post.
      rewrite E, <- app_assoc.
      now replace (S k0 + k) with (k0 + S k) by lia.
Qed.

Lemma newLine_wellFormed horiz i k pts :
  kept (newLine horiz i k pts) = true -> wellFormedLine (newLine horiz i k pts).
Proof.
  unfold kept, wellFormedLine; simpl. intros H.
  apply negb_true_iff, Nat.ltb_ge in H. auto.
Qed.

Lemma family_wellFormed mk n :
  (forall k, kept (mk k) = true -> wellFormedLine (mk k)) ->
  Forall wellFormedLine (family mk n []).
Proof.
  intros Hmk. rewrite family_nil. apply List.Forall_forall. intros l Hl.
  apply filter_In in Hl as [Hin Hk].
  apply in_map_iff in Hin as (k & <- & _). auto.
Qed.

Lemma boardLines_wellFormed corners b k :
  Forall wellFormedLine (boardLines corners b k []).
Proof.
  rewrite boardLines_nil.
  repeat (apply Forall_app; split);
    apply family_wellFormed; intros i; apply newLine_wellFormed.
Qed.

Lemma boardsLoop_wellFormed corners boards k :
  Forall wellFormedLine (boardsLoop corners boards k []).
Proof.
  revert k; induction boards as [|b boards IH]; intros k; simpl.
  - constructor.
  - rewrite boardsLoop_app. apply Forall_app; split.
    + apply boardLines_wellFormed.
    + apply IH.
Qed.

(** *** Inner loops *)

Lemma scan_stop corners stop at_ ks pts :
  scan corners stop at_ ks pts
  = scan corners never at_ (visited stop ks) pts.
Proof.
  revert pts; induction ks as [|k ks IH]; intros pts; simpl.
  - reflexivity.
  - destruct (stop k); simpl.
    + reflexivity.
    + destruct (at_ k =? UndefinedIndexT)%N; apply IH.
Qed.

Lemma scan_never corners at_ ks pts :
  scan corners never at_ ks pts
  = pts ++ List.map (fun idx => center (cornerAt corners idx))
             (List.filter defined (List.map at_ ks)).
Proof.
  revert pts; induction ks as [|k ks IH]; intros pts; simpl.
  - now rewrite app_nil_r.
  - unfold defined at 1.
    destruct (at_ k =? UndefinedIndexT)%N; simpl.
    + apply IH.
    + rewrite IH, <- app_assoc. reflexivity.
Qed.

Lemma visited_ext stop stop' ks :
  (forall k, stop k = stop' k) -> visited stop ks = visited stop' ks.
Proof.
  intros H; induction ks as [|k ks IH]; simpl.
  - reflexivity.
  - now rewrite H, IH.
Qed.

(** A loop that breaks once its counter reaches [n] visits the counters
    below [n]. *)
Lemma visited_bound n m s :
  visited (fun k => n <=? k) (seq s m) = seq s (Nat.min m (n - s)).
Proof.
  revert s; induction m as [|m IH]; intros s; simpl.
  - reflexivity.
  - destruct (Nat.leb_spec n s) as [Hle|Hlt].
    + replace (n - s) with 0 by lia. reflexivity.
    + rewrite IH. replace (n - s) with (S (n - S s)) by lia. reflexivity.
Qed.

Lemma visited_diag1 b :
  visited (fun j => rows b <=? 0 + j) (seq 0 (cols b))
  = seq 0 (Nat.min (rows b) (cols b)).
Proof.
  rewrite (visited_ext _ (fun k => rows b <=? k)) by reflexivity.
  rewrite visited_bound, Nat.sub_0_r. f_equal. apply Nat.min_comm.
Qed.

Lemma visited_diag2 b :
  visited (fun i => cols b <=? i + 0) (seq 0 (rows b))
  = seq 0 (Nat.min (rows b) (cols b)).
Proof.
  rewrite (visited_ext _ (fun k => cols b <=? k))
    by (intros k; now rewrite Nat.add_0_r).
  now rewrite visited_bound, Nat.sub_0_r.
Qed.

Lemma diag1_points corners b k :
  points (diag1Line corners b k 0) = centres corners b (mainDiagonal b).
Proof.
  unfold diag1Line, centres, mainDiagonal; simpl.
  rewrite scan_stop, visited_diag1, scan_never, List.map_map. reflexivity.
Qed.

Lemma diag2_points corners b k :
  points (diag2Line corners b k 0) = centres corners b (mainDiagonal b).
Proof.
  unfold diag2Line, centres, mainDiagonal; simpl.
  rewrite scan_stop, visited_diag2, scan_never, !List.map_map. simpl.
  do 2 f_equal. apply map_ext. intros i. now rewrite Nat.add_0_r.
Qed.

(** The first candidate of a family is emitted when it is long enough. *)
Lemma family_head mk n :
  0 < n -> kept (mk 0) = true ->
  exists rest, family mk n [] = mk 0 :: rest.
Proof.
  intros Hn Hk. rewrite family_nil. destruct n as [|n]; [lia|].
  simpl. rewrite Hk. eauto.
Qed.

End LinesFacts.

Lemma retrieveLines_snd detect :
  snd (retrieveLines detect)
  = Lines.boardsLoop (getCorners detect) (getBoards detect) 0 [].
Proof.
  unfold retrieveLines.
  now destruct (length (Lines.boardsLoop _ _ 0 []) <? 2).
Qed.

(** C8. Every line that [retrieveLines] emits holds at least 10 points
    and carries the initial values [angle = M_PI_4] (pi/4) and
    [dist = 1.0]; a candidate with fewer than 10 defined corners is
    therefore never in the output. *)
Theorem retrieveLines_wellFormed (detect : CheckerDetector) :
  Forall Spec.wellFormedLine (snd (retrieveLines detect)).
Proof.
  rewrite retrieveLines_snd. apply LinesFacts.boardsLoop_wellFormed.
Qed.

(** The boundary cases of the size test: a row of exactly ten corners
    gives one line, a row of nine gives none. *)
Example retrieveLines_ten_corners :
  length (snd (retrieveLines (Fixtures.detector 1 10))) = 1
  /\ snd (retrieveLines (Fixtures.detector 1 9)) = [].
Proof. split; vm_compute; reflexivity. Qed.

(** C9. For the board [b] at position [k] of a detector, the inner loop
    of the first diagonal family started at row 0 and the inner loop of
    the second diagonal family started at column 0 both visit exactly the
    cells [(k, k)], [k < min rows cols]; the two candidate lines are equal,
    and when the main diagonal holds at least 10 defined corners both are
    emitted, so the output holds two lines with the same points. *)
Theorem diagonal_families_overlap (detect : CheckerDetector) (k : nat)
    (b : CheckerBoard) :
  getBoards detect !! k = Some b ->
  let corners := getCorners detect in
  let d1 := Lines.diag1Line corners b k 0 in
  let d2 := Lines.diag2Line corners b k 0 in
  List.map (fun j => (0 + j, j))
      (Spec.visited (fun j => rows b <=? 0 + j) (seq 0 (cols b)))
    = Spec.mainDiagonal b
  /\ List.map (fun i => (i, i + 0))
      (Spec.visited (fun i => cols b <=? i + 0) (seq 0 (rows b)))
    = Spec.mainDiagonal b
  /\ d1 = d2
  /\ points d1 = Spec.centres corners b (Spec.mainDiagonal b)
  /\ (10 <= length (List.filter Spec.defined
                      (List.map (fun c => cell b (fst c) (snd c))
                                (Spec.mainDiagonal b))) ->
      exists l1 l2 l3,
        snd (retrieveLines detect) = l1 ++ d1 :: l2 ++ d2 :: l3).
Proof.
  intros Hb corners d1 d2.
  assert (E12 : d1 = d2).
  { unfold d1, d2, Lines.diag1Line, Lines.diag2Line. f_equal.
    exact (eq_trans (LinesFacts.diag1_points corners b k)
                    (eq_sym (LinesFacts.diag2_points corners b k))). }
  split; [|split; [|split; [exact E12|split]]].
  - rewrite LinesFacts.visited_diag1. reflexivity.
  - rewrite LinesFacts.visited_diag2. unfold Spec.mainDiagonal.
    apply map_ext. intros i. now rewrite Nat.add_0_r.
  - apply LinesFacts.diag1_points.
  - intros Hlen.
    assert (Hk1 : Spec.kept d1 = true).
    { unfold Spec.kept, d1. rewrite LinesFacts.diag1_points.
      unfold Spec.centres. rewrite length_map.
      apply negb_true_iff, Nat.ltb_ge. exact Hlen. }
    assert (Hk2 : Spec.kept d2 = true) by now rewrite <- E12.
    assert (Hmin : 10 <= Nat.min (rows b) (cols b)).
    { etransitivity; [exact Hlen|].
      etransitivity; [apply List.filter_length_le|].
      unfold Spec.mainDiagonal. now rewrite !length_map, length_seq. }
    destruct (LinesFacts.family_head (Lines.diag1Line corners b k) (rows b))
      as [r1 E1]; [lia|exact Hk1|].
    destruct (LinesFacts.family_head (Lines.diag2Line corners b k) (cols b))
      as [r2 E2]; [lia|exact Hk2|].
    destruct (LinesFacts.boardsLoop_lookup corners (getBoards detect) k b Hb 0)
      as (pre & post & E).
    rewrite retrieveLines_snd. fold corners. rewrite E. simpl.
    rewrite LinesFacts.boardLines_nil, E1, E2.
    exists (pre ++ Lines.family (Lines.rowLine corners b k) (rows b) []
                ++ Lines.family (Lines.colLine corners b k) (cols b) []),
           r1,
           (r2 ++ Lines.family (Lines.diag3Line corners b k) (cols b) [] ++ post).
    fold d1 d2. repeat (rewrite <- app_assoc; simpl). reflexivity.
Qed.

(** On a full 10 x 10 board the overlap shows: the main diagonal is
    emitted twice. *)
Lemma diagonal_families_overlap_witness :
  let detect := Fixtures.detector 10 10 in
  let b := Fixtures.fullBoard 10 10 in
  exists l1 l2 l3,
    snd (retrieveLines detect)
    = l1 ++ Lines.diag1Line (getCorners detect) b 0 0
         :: l2 ++ Lines.diag2Line (getCorners detect) b 0 0 :: l3.
Proof.
  intros detect b.
  apply (diagonal_families_overlap detect 0 b eq_refl).
  vm_compute. lia.
Defined.

(** ** The schedules *)

Module ScheduleFacts.
Import Spec.

Lemma respectsLocks_call {T} (estimate : Estimator T) :
  respectsLocks estimate ->
  forall cam stats its ls lo lk ll ok cam' stats' its',
    estimate cam stats its ls lo lk ll = (ok, (cam', stats', its')) ->
    forall i : nat, lk !! i = Some true ->
      getDistortionParams cam' !! i = getDistortionParams cam !! i.
Proof.
  intros H cam stats its ls lo lk ll ok cam' stats' its' E i Hi.
  specialize (H cam stats its ls lo lk ll i Hi). now rewrite E in H.
Qed.

Lemma nudge_locked locks params (i : nat) :
  locks !! i = Some true -> Fixtures.nudge locks params !! i = params !! i.
Proof.
  revert locks i; induction params as [|p params IH]; intros locks i Hi.
  - reflexivity.
  - destruct locks as [|[|] locks]; simpl.
    + discriminate.
    + destruct i as [|i]; simpl in *; [reflexivity|]. now apply IH.
    + destruct i as [|i]; simpl in *; [discriminate|]. now apply IH.
Qed.

Lemma estimateNudges_respectsLocks {T} :
  respectsLocks (@Fixtures.estimateNudges T).
Proof.
  intros cam stats its ls lo locks ll i Hi. simpl. now apply nudge_locked.
Qed.

(** Splits on the next solver call of the goal, keeping what the lock
    hypothesis says about its result. *)
Ltac next_call Hlocks :=
  match goal with
  | |- context [match ?est ?c ?s ?i ?ls ?lo ?lk ?ll with pair _ _ => _ end] =>
      let E := fresh "E" in
      let L := fresh "L" in
      destruct (est c s i ls lo lk ll) as [[|] [[? ?] ?]] eqn:E;
      pose proof (respectsLocks_call est Hlocks _ _ _ _ _ _ _ _ _ _ _ E) as L;
      clear E; cbn -[lookup] in *
  end.

(** The same without a lock hypothesis. *)
Ltac split_call :=
  match goal with
  | |- context [match ?est ?c ?s ?i ?ls ?lo ?lk ?ll with pair _ _ => _ end] =>
      destruct (est c s i ls lo lk ll) as [[|] [[? ?] ?]];
      cbn -[lookup] in *
  end.

Ltac chase_locks :=
  repeat match goal with
         | L : forall i : nat, _ -> getDistortionParams ?c !! i = _
           |- context [getDistortionParams ?c !! _] =>
             rewrite L by reflexivity
         end.

End ScheduleFacts.

(** C4. What the head of [estimateDistortion3DEA4] leaves in a 14-entry
    parameter vector [p0 .. p13], as the first solver call of the schedule
    receives it: entries 0-3 and 5-10 are 0, entries 11-13 are 1.0, and
    entry 4 still holds its prior value [p4] (the source has no assignment
    to [params[4]]). *)
Theorem schedule3DEA4_initial_params {T} (estimate : Estimator T)
    (cam : IntrinsicBase) (stats : Statistics) (its : list T)
    (p0 p1 p2 p3 p4 p5 p6 p7 p8 p9 p10 p11 p12 p13 : double) :
  let prior := [p0; p1; p2; p3; p4; p5; p6; p7; p8; p9; p10; p11; p12; p13] in
  let st := {| camera := setDistortionParams prior cam;
               statistics := stats; items := its; trace := [] |} in
  let run := estimateDistortion3DEA4 estimate st in
  initParams3DEA4 prior
  = [0; 0; 0; 0; p4; 0; 0; 0; 0; 0; 0; 1; 1; 1]%float
  /\ exists e1, Spec.estimateCalls (trace (snd run)) !! 0 = Some e1
       /\ Spec.paramsBefore e1 = initParams3DEA4 prior.
Proof.
  intros prior st run. split; [reflexivity|].
  subst run st.
  unfold estimateDistortion3DEA4, andThen, tryEstimate, withCamera.
  cbn [camera statistics items trace].
  repeat ScheduleFacts.split_call.
  all: eexists; split; reflexivity.
Qed.

(** The failing input of C4: a vector whose entries are all 0.5 keeps 0.5
    at index 4, which is not 0. *)
Example schedule3DEA4_entry4_survives :
  initParams3DEA4 (repeat 0.5%float 14) !! 4 = Some 0.5%float
  /\ (0.5 =? 0)%float = false.
Proof. split; reflexivity. Qed.



(** With that solver the run does succeed and the fourth call moves
    parameters 0, 2 and 3 only. *)
Example schedule3DELD_nudged :
  let st := {| camera := Fixtures.mkCamera Pinhole3DEClassicLD
                           (repeat 0.5%float 5);
               statistics := newStatistics; items := @nil LineWithPoints;
               trace := [] |} in
  let run := estimateDistortion3DELD Fixtures.estimateNudges st in
  fst run = true
  /\ List.map Spec.paramsAfter (Spec.estimateCalls (trace (snd run)))
     = [[0; M_PI_2; 0; 0; 0]; [1; M_PI_2; 0; 0; 0]; [2; M_PI_2; 0; 0; 0];
        [3; M_PI_2; 1; 1; 0];
        [4; M_PI_2 + 1; 2; 2; 1]]%float.
Proof. split; vm_compute; reflexivity. Qed.

(** ** Point generation *)

Module FloatFacts.

(** Swapping the operands of a comparison of two floats flips it. *)
Lemma SFcompare_swap x y :
  SFcompare y x = option_map CompOpp (SFcompare x y).
Proof.
  destruct x as [sx|sx| |sx mx ex], y as [sy|sy| |sy my ey]; simpl;
    try reflexivity;
    try (destruct sx; reflexivity);
    try (destruct sy; reflexivity);
    try (destruct sx, sy; reflexivity).
  change (Pos.compare_cont Eq my mx) with (my ?= mx)%positive.
  change (Pos.compare_cont Eq mx my) with (mx ?= my)%positive.
  rewrite (Z.compare_antisym ex ey), (Pos.compare_antisym mx my).
  destruct sx, sy; simpl; try reflexivity;
    destruct (ex ?= ey)%Z; simpl; try reflexivity;
    destruct (mx ?= my)%positive; reflexivity.
Qed.

Lemma SFcompare_None x y :
  SFcompare x y = None -> SFeqb x x = false \/ SFeqb y y = false.
Proof.
  destruct x as [sx|sx| |sx mx ex], y as [sy|sy| |sy my ey]; simpl;
    intros H; try discriminate H; auto.
Qed.

(** For two floats of which the second is a number: when [x < y] is
    false, then [y] is NaN or [y <= x]. *)
Lemma not_lt_le (x y : float) :
  is_nan x = false ->
  (x <? y)%float = false ->
  is_nan y = true \/ (y <=? x)%float = true.
Proof.
  unfold is_nan.
  rewrite ltb_spec, leb_spec, !FloatAxioms.eqb_spec.
  unfold SFltb, SFleb. rewrite (SFcompare_swap (Prim2SF x) (Prim2SF y)).
  intros Hx Hlt.
  destruct (SFcompare (Prim2SF x) (Prim2SF y)) as [[| |]|] eqn:E; simpl;
    auto; try discriminate Hlt.
  apply SFcompare_None in E as [E|E].
  - rewrite E in Hx. discriminate Hx.
  - left. now rewrite E.
Qed.

End FloatFacts.

Module PointFacts.
Import Spec.
Section WithCamera.
Variable get_d_pixel get_ud_pixel : IntrinsicBase -> Vec2 -> Vec2.
Variable cam : IntrinsicBase.

Lemma pushPoint_fold pts acc :
  fold_left (pushPoint get_d_pixel get_ud_pixel cam) pts acc
  = acc ++ List.filter (accepted get_ud_pixel cam)
             (List.map (makePair get_d_pixel cam) pts).
Proof.
  revert acc; induction pts as [|pt pts IH]; intros acc; simpl.
  - now rewrite app_nil_r.
  - rewrite IH. unfold pushPoint, accepted at 2.
    destruct (roundTripBound <? _)%float; simpl.
    + reflexivity.
    + now rewrite <- app_assoc.
Qed.

Lemma generatePoints_filter pts lineWithPoints :
  snd (generatePoints get_d_pixel get_ud_pixel pts cam lineWithPoints)
  = pts ++ List.filter (accepted get_ud_pixel cam)
             (List.map (makePair get_d_pixel cam)
                       (flat_map points lineWithPoints)).
Proof.
  unfold generatePoints; simpl.
  revert pts; induction lineWithPoints as [|l ls IH]; intros pts; simpl.
  - now rewrite app_nil_r.
  - rewrite IH, pushPoint_fold, List.map_app, List.filter_app, <- app_assoc.
    reflexivity.
Qed.

Lemma accepted_bound pp :
  accepted get_ud_pixel cam pp = true ->
  is_nan (roundTripError get_ud_pixel cam pp) = true
  \/ (roundTripError get_ud_pixel cam pp <=? roundTripBound)%float = true.
Proof.
  unfold accepted. intros H. apply negb_true_iff in H.
  now apply FloatFacts.not_lt_le.
Qed.
End WithCamera.
End PointFacts.

(** What [generatePoints] does on every input. It returns [true] and
    appends exactly the candidate pairs for which the test [err > 1e-3]
    is false, in order; for each appended pair the round-trip error is at
    most 1e-3, unless it is NaN (a comparison with NaN is false, so the
    test does not drop such a pair). *)
Theorem generatePoints_accepts
    (get_d_pixel get_ud_pixel : IntrinsicBase -> Vec2 -> Vec2)
    (pts : list PointPair) (cam : IntrinsicBase)
    (lineWithPoints : list LineWithPoints) :
  let err := roundTripError get_ud_pixel cam in
  let new := List.filter (fun pp => negb (roundTripBound <? err pp)%float)
               (List.map (makePair get_d_pixel cam)
                         (flat_map points lineWithPoints)) in
  generatePoints get_d_pixel get_ud_pixel pts cam lineWithPoints
  = (true, pts ++ new)
  /\ Forall (fun pp => is_nan (err pp) = true
                       \/ (err pp <=? roundTripBound)%float = true) new.
Proof.
  intros err new. split.
  - unfold generatePoints. f_equal.
    exact (PointFacts.generatePoints_filter get_d_pixel get_ud_pixel cam
             pts lineWithPoints).
  - apply List.Forall_forall. intros pp Hpp.
    apply filter_In in Hpp as [_ Hacc].
    now apply (PointFacts.accepted_bound get_ud_pixel cam).
Qed.

Module NanFacts.

(** No float is below a NaN. *)
Lemma lt_nan (x y : float) : is_nan y = true -> (x <? y)%float = false.
Proof.
  unfold is_nan. rewrite ltb_spec, FloatAxioms.eqb_spec.
  unfold SFltb, SFeqb.
  destruct (Prim2SF y) as [sy|sy| |sy my ey]; simpl.
  - discriminate.
  - destruct sy; discriminate.
  - intros _. now destruct (Prim2SF x).
  - rewrite Z.compare_refl.
    change (Pos.compare_cont Eq my my) with (my ?= my)%positive.
    rewrite Pos.compare_refl. destruct sy; discriminate.
Qed.

(** A pair whose round-trip error is NaN passes the test of
    [generatePoints] and is appended. *)
Lemma pushPoint_nan (get_d_pixel get_ud_pixel : IntrinsicBase -> Vec2 -> Vec2)
    cam pts pt :
  is_nan (roundTripError get_ud_pixel cam (makePair get_d_pixel cam pt)) = true ->
  pushPoint get_d_pixel get_ud_pixel cam pts pt
  = pts ++ [makePair get_d_pixel cam pt].
Proof.
  intros H. unfold pushPoint. cbv zeta. now rewrite (lt_nan _ _ H).
Qed.

End NanFacts.

(** C6, at its failing input: a line with a corner that has a NaN
    coordinate and a corner that has an infinite one, on a camera whose
    pixel maps are the identity. For both corners the round-trip error is
    NaN, the test [err > 1e-3] is false, and [generatePoints] appends the
    pair although its error is not at most 1e-3. *)
Theorem generatePoints_accepts_nan :
  let cam := Fixtures.mkCamera PinholeRadialK1 [0%float] in
  let line := Lines.newLine true 0 0 [(nan, 0%float); (infinity, 1%float)] in
  let run := generatePoints Fixtures.pixelIdentity Fixtures.pixelIdentity
               [] cam [line] in
  let err := roundTripError Fixtures.pixelIdentity cam in
  fst run = true
  /\ List.map distortedPoint (snd run) = [(nan, 0%float); (infinity, 1%float)]
  /\ List.map (fun pp => is_nan (err pp)) (snd run) = [true; true]
  /\ List.map (fun pp => (err pp <=? roundTripBound)%float) (snd run)
     = [false; false].
Proof. repeat split; vm_compute; reflexivity. Qed.

(** An ordinary corner passes with error 0 (here next to one with an
    infinite coordinate), and a corner that the camera maps do not bring
    back is dropped. *)
Example generatePoints_cases :
  let cam := Fixtures.mkCamera PinholeRadialK1 [0%float] in
  let line := Lines.newLine true 0 0
                [(3%float, 4%float); (infinity, 1%float)] in
  List.map distortedPoint
    (snd (generatePoints Fixtures.pixelIdentity Fixtures.pixelIdentity
            [] cam [line]))
  = [(3%float, 4%float); (infinity, 1%float)]
  /\ snd (generatePoints Fixtures.pixelIdentity (fun _ _ => (0%float, 0%float))
            [] cam [line]) = [].
Proof. split; vm_compute; reflexivity. Qed.

(** ** The driver *)

Module DriverFacts.
Import Spec.

Section Emits.
Context {T : Type}.
Variable estimate : Estimator T.
Variable P : Event -> Prop.
Hypothesis P_other : forall e, notPointError e -> P e.

Lemma P_event e : notPointError e -> Forall P [e].
Proof. intros H. constructor; [now apply P_other|constructor]. Qed.

Lemma emits_ret b : emits P (@ret T b).
Proof. intros st. exists []. simpl. now rewrite app_nil_r. Qed.

Lemma emits_andThen (m k : Step T) :
  emits P m -> emits P k -> emits P (andThen m k).
Proof.
  intros Hm Hk st. unfold andThen.
  destruct (Hm st) as (more1 & E1 & F1).
  destruct (m st) as [[|] st1]; simpl in *.
  - destruct (Hk st1) as (more2 & E2 & F2).
    exists (more1 ++ more2). rewrite E2, E1, <- app_assoc.
    split; [reflexivity|now apply Forall_app].
  - now exists more1.
Qed.

Lemma emits_tryEstimate ls lo lk ll :
  emits P (tryEstimate estimate ls lo lk ll).
Proof.
  intros st. unfold tryEstimate.
  destruct (estimate _ _ _ ls lo lk ll) as [[|] [[cam' stats'] its']];
    simpl.
  - eexists; split; [reflexivity|]. apply P_event. discriminate.
  - rewrite <- app_assoc. eexists; split; [reflexivity|].
    repeat constructor; apply P_other; discriminate.
Qed.

Lemma emits_orContinue msg (m : Step T) :
  notPointError (LOG_ERROR msg) ->
  emits P m -> emits P (orContinue msg m).
Proof.
  intros Hmsg Hm st. unfold orContinue.
  destruct (Hm st) as (more & E & F).
  destruct (m st) as [[|] st1]; simpl in *.
  - now exists more.
  - exists (more ++ [LOG_ERROR msg]). rewrite E, <- app_assoc.
    split; [reflexivity|]. apply Forall_app; split; [exact F|].
    now apply P_event.
Qed.

Ltac chain :=
  cbv zeta;
  repeat first [apply emits_andThen | apply emits_tryEstimate
               | apply emits_ret].

Lemma emits_K1 : emits P (estimateDistortionK1 estimate).
Proof. unfold estimateDistortionK1. chain. Qed.

Lemma emits_K3 : emits P (estimateDistortionK3 estimate).
Proof. unfold estimateDistortionK3. chain. Qed.

Lemma emits_3DER4 : emits P (estimateDistortion3DER4 estimate).
Proof. unfold estimateDistortion3DER4. chain. Qed.

Ltac after_init st :=
  cbv zeta;
  match goal with
  | |- context [snd (?m (withCamera ?f st))] =>
      let H := fresh "H" in
      assert (H : emits P m) by chain;
      exact (H (withCamera f st))
  end.

Lemma emits_3DEA4 : emits P (estimateDistortion3DEA4 estimate).
Proof. intros st. unfold estimateDistortion3DEA4. after_init st. Qed.

Lemma emits_3DELD : emits P (estimateDistortion3DELD estimate).
Proof. intros st. unfold estimateDistortion3DELD. after_init st. Qed.

Lemma emits_dispatch msg :
  notPointError (LOG_ERROR msg) -> emits P (dispatch estimate msg).
Proof.
  intros Hmsg st. unfold dispatch.
  destruct (dynamicClass (camera st));
    try (apply emits_orContinue;
         [exact Hmsg
         |first [apply emits_K1 | apply emits_K3 | apply emits_3DER4
                | apply emits_3DEA4 | apply emits_3DELD]]);
    simpl; eexists; (split; [reflexivity|]); apply P_event; discriminate.
Qed.

Lemma logQuality_trace title (st : Calib T) :
  trace (logQuality title st)
  = trace st ++ [LOG_INFO title; LOG_INFO "Mean of error (stddev): ";
                 LOG_INFO "Median of error: "].
Proof. unfold logQuality, log; simpl. now rewrite <- !app_assoc. Qed.

Lemma logQuality_P title :
  Forall P [LOG_INFO title; LOG_INFO "Mean of error (stddev): ";
            LOG_INFO "Median of error: "].
Proof. repeat constructor; apply P_other; discriminate. Qed.

Lemma first_andThen ls lo lk ll (k : Step T) :
  emits P k ->
  callsSolverFirst (andThen (tryEstimate estimate ls lo lk ll) k).
Proof.
  intros Hk st. unfold andThen, tryEstimate.
  destruct (estimate _ _ _ ls lo lk ll) as [[|] [[cam' stats'] its']];
    simpl.
  - match goal with
    | |- context [k ?st1] => destruct (Hk st1) as (more & E & _)
    end.
    simpl in E. rewrite E, <- app_assoc. simpl.
    eexists _, more. split; [|reflexivity]. reflexivity.
  - rewrite <- app_assoc. simpl. eexists _, _.
    split; [|reflexivity]. reflexivity.
Qed.

Ltac first_call :=
  cbv zeta; apply first_andThen; chain.

Lemma first_K1 : callsSolverFirst (estimateDistortionK1 estimate).
Proof. unfold estimateDistortionK1. first_call. Qed.

Lemma first_K3 : callsSolverFirst (estimateDistortionK3 estimate).
Proof. unfold estimateDistortionK3. first_call. Qed.

Lemma first_3DER4 : callsSolverFirst (estimateDistortion3DER4 estimate).
Proof. unfold estimateDistortion3DER4. first_call. Qed.

Ltac first_after_init st :=
  cbv zeta;
  match goal with
  | |- context [snd (?m (withCamera ?f st))] =>
      let H := fresh "H" in
      assert (H : callsSolverFirst m) by first_call;
      exact (H (withCamera f st))
  end.

Lemma first_3DEA4 : callsSolverFirst (estimateDistortion3DEA4 estimate).
Proof. intros st. unfold estimateDistortion3DEA4. first_after_init st. Qed.

Lemma first_3DELD : callsSolverFirst (estimateDistortion3DELD estimate).
Proof. intros st. unfold estimateDistortion3DELD. first_after_init st. Qed.

Lemma first_orContinue msg (m : Step T) :
  callsSolverFirst m -> callsSolverFirst (orContinue msg m).
Proof.
  intros Hm st. unfold orContinue.
  destruct (Hm st) as (e & more & He & E).
  destruct (m st) as [[|] st1]; simpl in *.
  - now exists e, more.
  - exists e, (more ++ [LOG_ERROR msg]).
    rewrite E, <- app_assoc. now split.
Qed.

Lemma first_dispatch msg st :
  hasSchedule (dynamicClass (camera st)) = true ->
  exists e more,
    isEstimate e = true
    /\ trace (snd (dispatch estimate msg st)) = trace st ++ e :: more.
Proof.
  unfold dispatch.
  destruct (dynamicClass (camera st)); simpl; intros H;
    try discriminate H; apply first_orContinue;
    first [apply first_K1 | apply first_K3 | apply first_3DER4
          | apply first_3DEA4 | apply first_3DELD].
Qed.

End Emits.

Section Scale.
Context {T : Type}.
Variable estimate : Estimator T.
Hypothesis Hkeep : keepsScale estimate.

Lemma stable_ret b : scaleStable (@ret T b).
Proof. intros st. reflexivity. Qed.

Lemma stable_andThen (m k : Step T) :
  scaleStable m -> scaleStable k -> scaleStable (andThen m k).
Proof.
  intros Hm Hk st. unfold andThen.
  specialize (Hm st). destruct (m st) as [[|] st1]; simpl in *.
  - now rewrite Hk.
  - exact Hm.
Qed.

Lemma stable_tryEstimate ls lo lk ll :
  scaleStable (tryEstimate estimate ls lo lk ll).
Proof.
  intros st. unfold tryEstimate.
  pose proof (Hkeep (camera st) (statistics st) (items st) ls lo lk ll) as H.
  destruct (estimate _ _ _ ls lo lk ll) as [[|] [[cam' stats'] its']];
    simpl in *; exact H.
Qed.

Lemma stable_orContinue msg (m : Step T) :
  scaleStable m -> scaleStable (orContinue msg m).
Proof.
  intros Hm st. unfold orContinue.
  specialize (Hm st). destruct (m st) as [[|] st1]; simpl in *; exact Hm.
Qed.

Ltac stable_chain :=
  cbv zeta;
  repeat first [apply stable_andThen | apply stable_tryEstimate
               | apply stable_ret].

Ltac stable_after_init st :=
  cbv zeta;
  match goal with
  | |- context [snd (?m (withCamera ?f st))] =>
      let H := fresh "H" in
      assert (H : scaleStable m) by stable_chain;
      exact (H (withCamera f st))
  end.

Lemma stable_dispatch msg : scaleStable (dispatch estimate msg).
Proof.
  intros st. unfold dispatch.
  destruct (dynamicClass (camera st)); try reflexivity;
    apply stable_orContinue.
  - unfold estimateDistortionK1. stable_chain.
  - unfold estimateDistortionK3. stable_chain.
  - unfold estimateDistortion3DER4. stable_chain.
  - intros st0. unfold estimateDistortion3DEA4. stable_after_init st0.
  - intros st0. unfold estimateDistortion3DELD. stable_after_init st0.
Qed.

End Scale.

Section Loop.
Variable get_d_pixel get_ud_pixel : IntrinsicBase -> Vec2 -> Vec2.
Variable estimateLines : Estimator LineWithPoints.
Variable estimatePoints : Estimator PointPair.
Variable views : list (IndexT * View).
Variable boardsAllImages : gmap N CheckerDetector.
Variable P : Event -> Prop.
Hypothesis P_other : forall e, notPointError e -> P e.

Lemma forwardFit_emits cam allLines tr :
  exists more,
    trace (snd (forwardFit estimateLines cam allLines tr)) = tr ++ more
    /\ Forall P more.
Proof.
  unfold forwardFit. cbv zeta.
  match goal with
  | |- context [dispatch estimateLines ?msg ?st] =>
      destruct (emits_dispatch estimateLines P P_other msg
                  ltac:(discriminate) st) as (more & E & F);
      destruct (dispatch estimateLines msg st) as [[|] st1]
  end; cbn [fst snd negb trace withCamera] in *.
  - rewrite (logQuality_trace (T := LineWithPoints)), E, <- app_assoc.
    eexists; split; [reflexivity|].
    apply Forall_app; split; [exact F|now apply logQuality_P].
  - now exists more.
Qed.

Lemma inverseFit_emits st :
  exists more,
    trace (inverseFit get_d_pixel get_ud_pixel estimatePoints st)
    = trace st ++ more
    /\ Forall P more.
Proof.
  unfold inverseFit, generatePoints. cbv zeta. cbn [negb].
  match goal with
  | |- context [dispatch estimatePoints ?msg ?st0] =>
      destruct (emits_dispatch estimatePoints P P_other msg
                  ltac:(discriminate) st0) as (more & E & F);
      destruct (dispatch estimatePoints msg st0) as [[|] st1]
  end; cbn [fst snd negb trace withCamera] in *.
  - rewrite (logQuality_trace (T := PointPair)), E, <- app_assoc.
    eexists; split; [reflexivity|].
    apply Forall_app; split; [exact F|now apply logQuality_P].
  - now exists more.
Qed.

Lemma calibrateIntrinsic_emits intrinsicId cam tr :
  exists more,
    snd (calibrateIntrinsic get_d_pixel get_ud_pixel estimateLines
           estimatePoints views boardsAllImages intrinsicId cam tr)
    = tr ++ PROCESSING intrinsicId :: more
    /\ Forall P more.
Proof.
  unfold calibrateIntrinsic. cbv zeta.
  match goal with
  | |- context [forwardFit estimateLines cam ?ls ?tr0] =>
      destruct (forwardFit_emits cam ls tr0) as (more & E & F);
      destruct (forwardFit estimateLines cam ls tr0) as [[|] st]
  end; simpl in *.
  - destruct (inverseFit_emits st) as (more2 & E2 & F2).
    exists (more ++ more2). rewrite E2, E, <- !app_assoc.
    split; [reflexivity|now apply Forall_app].
  - exists more. now rewrite E, <- app_assoc.
Qed.

Lemma intrinsicsLoop_emits todo tr :
  exists more,
    snd (intrinsicsLoop get_d_pixel get_ud_pixel estimateLines
           estimatePoints views boardsAllImages todo tr)
    = tr ++ more
    /\ Forall P more.
Proof.
  revert tr; induction todo as [|[intrinsicId cam] todo IH]; intros tr;
    simpl.
  - exists []. now rewrite app_nil_r.
  - destruct (isPinhole cam); simpl.
    + destruct (calibrateIntrinsic_emits intrinsicId cam tr)
        as (more & E & F).
      destruct (calibrateIntrinsic _ _ _ _ _ _ intrinsicId cam tr)
        as [cam' tr']; simpl in E.
      destruct (IH tr') as (more2 & E2 & F2).
      destruct (intrinsicsLoop _ _ _ _ _ _ todo tr') as [r tr''];
        simpl in *.
      exists ((PROCESSING intrinsicId :: more) ++ more2).
      rewrite E2, E, <- app_assoc. split; [reflexivity|].
      apply Forall_app; split; [|exact F2].
      constructor; [apply P_other; discriminate|exact F].
    + eexists; split; [reflexivity|]. apply P_event; [exact P_other|].
      discriminate.
Qed.

(** The loop on a list split in two. *)
Lemma intrinsicsLoop_app pre rest tr :
  intrinsicsLoop get_d_pixel get_ud_pixel estimateLines estimatePoints
    views boardsAllImages (pre ++ rest) tr
  = match intrinsicsLoop get_d_pixel get_ud_pixel estimateLines
            estimatePoints views boardsAllImages pre tr with
    | (Some out, tr') =>
        let (r, tr'') :=
          intrinsicsLoop get_d_pixel get_ud_pixel estimateLines
            estimatePoints views boardsAllImages rest tr' in
        (option_map (app out) r, tr'')
    | (None, tr') => (None, tr')
    end.
Proof.
  revert tr; induction pre as [|[intrinsicId cam] pre IH]; intros tr;
    simpl.
  - destruct (intrinsicsLoop _ _ _ _ _ _ rest tr) as [[r|] tr'];
      reflexivity.
  - destruct (isPinhole cam); simpl; [|reflexivity].
    destruct (calibrateIntrinsic _ _ _ _ _ _ intrinsicId cam tr)
      as [cam' tr'].
    rewrite IH.
    destruct (intrinsicsLoop _ _ _ _ _ _ pre tr') as [[out|] tr''];
      simpl; [|reflexivity].
    destruct (intrinsicsLoop _ _ _ _ _ _ rest tr'') as [[r|] tr3];
      reflexivity.
Qed.

(** When every intrinsic is a pinhole the loop runs to its end. *)
Lemma intrinsicsLoop_pinholes todo tr :
  Forall (fun p => isPinhole (snd p) = true) todo ->
  exists out,
    fst (intrinsicsLoop get_d_pixel get_ud_pixel estimateLines
           estimatePoints views boardsAllImages todo tr) = Some out.
Proof.
  intros H; revert tr; induction H as [|[intrinsicId cam] todo Hc _ IH];
    intros tr; simpl.
  - now exists [].
  - simpl in Hc. rewrite Hc. simpl.
    destruct (calibrateIntrinsic _ _ _ _ _ _ intrinsicId cam tr)
      as [cam' tr'].
    destruct (IH tr') as [out E].
    destruct (intrinsicsLoop _ _ _ _ _ _ todo tr') as [r tr''];
      simpl in *; subst r.
    now eexists.
Qed.

End Loop.

(** The loading loop goes through when no file is malformed. *)
Lemma loadBoards_parses readFile views acc :
  Forall (fun pv => readFile (fst pv) <> FileMalformed) views ->
  exists boardsAllImages, loadBoards readFile views acc = Some boardsAllImages.
Proof.
  intros H; revert acc; induction H as [|pv views Hpv _ IH]; intros acc;
    simpl.
  - now exists acc.
  - destruct (readFile (fst pv)); [apply IH|congruence|apply IH].
Qed.

Lemma main_emits get_d_pixel get_ud_pixel estimateLines estimatePoints
    (P : Event -> Prop) load readFile save :
  (forall e, notPointError e -> P e) ->
  Forall P (snd (aliceVision_main get_d_pixel get_ud_pixel estimateLines
                   estimatePoints load readFile save)).
Proof.
  intros P_other.
  unfold aliceVision_main. destruct load as [sfmData|]; simpl.
  2:{ apply P_event; [exact P_other|discriminate]. }
  destruct (loadBoards readFile (getViews sfmData) ∅) as [boardsAllImages|];
    [|constructor].
  destruct (intrinsicsLoop_emits get_d_pixel get_ud_pixel estimateLines
              estimatePoints (getViews sfmData) boardsAllImages P P_other
              (getIntrinsics sfmData) [])
    as (more & E & F). simpl in E.
  destruct (intrinsicsLoop _ _ _ _ _ boardsAllImages
              (getIntrinsics sfmData) []) as [[out|] tr];
    simpl in *; subst tr; [|exact F].
  destruct (save _); simpl; apply Forall_app; split; try exact F;
    repeat constructor; apply P_other; discriminate.
Qed.

End DriverFacts.

Lemma gatherLines_views views boardsAllImages intrinsicId :
  gatherLines views boardsAllImages intrinsicId
  = flat_map (Spec.viewLines boardsAllImages intrinsicId) views.
Proof.
  unfold gatherLines.
  rewrite <- (app_nil_l (flat_map _ views)). generalize (@nil LineWithPoints).
  induction views as [|pv views IH]; intros acc; simpl.
  - now rewrite app_nil_r.
  - rewrite IH. unfold Spec.viewLines at 2.
    destruct (getIntrinsicId (snd pv) =? intrinsicId)%N; simpl.
    + destruct (retrieveLines _) as [[|] ls]; simpl.
      * now rewrite <- app_assoc.
      * reflexivity.
    + reflexivity.
Qed.

(** The path of [forwardFit] that reaches [setScale(scale)] leaves the
    camera with the pixel scale it came with, whatever the solver did. *)
Lemma forwardFit_restores_scale estimateLines cam allLines tr :
  fst (forwardFit estimateLines cam allLines tr) = true ->
  getScale (camera (snd (forwardFit estimateLines cam allLines tr)))
  = getScale cam.
Proof.
  unfold forwardFit. cbv zeta.
  destruct (dispatch estimateLines _ _) as [[|] st]; simpl.
  - reflexivity.
  - discriminate.
Qed.

Lemma forwardFit_restores_scale_witness :
  let cam := Fixtures.mkCamera PinholeRadialK1 [0%float] in
  getScale (camera (snd (forwardFit Fixtures.estimateNudges cam [] [])))
  = getScale cam.
Proof.
  intros cam. apply forwardFit_restores_scale. vm_compute. reflexivity.
Defined.

(** The path of [forwardFit] that leaves by [continue] keeps the scale
    [(diag, diag)] when the solver itself leaves the scale alone. *)
Lemma forwardFit_abort_scale estimateLines cam allLines tr :
  Spec.keepsScale estimateLines ->
  fst (forwardFit estimateLines cam allLines tr) = false ->
  getScale (camera (snd (forwardFit estimateLines cam allLines tr)))
  = (Spec.diagOf cam, Spec.diagOf cam).
Proof.
  intros Hkeep. unfold forwardFit. cbv zeta.
  match goal with
  | |- context [dispatch estimateLines ?msg ?st] =>
      pose proof (DriverFacts.stable_dispatch estimateLines Hkeep msg st) as H;
      destruct (dispatch estimateLines msg st) as [[|] st1]
  end; simpl in *.
  - discriminate.
  - intros _. exact H.
Qed.

Lemma forwardFit_abort_scale_witness :
  let cam := Fixtures.mkCamera PinholeRadialK1 [0%float] in
  getScale (camera (snd (forwardFit Fixtures.estimateFails cam [] [])))
  = (Spec.diagOf cam, Spec.diagOf cam).
Proof.
  intros cam. apply forwardFit_abort_scale.
  - intros c stats its ls lo locks ll. reflexivity.
  - vm_compute. reflexivity.
Defined.

(** C1, at its failing input: a radial-K1 camera of 1920 x 1080 pixels
    with pixel scale (1000, 1000), and a solver whose first stage fails.
    The body of the loop is left by [continue] before the scale is put
    back: the camera keeps the scale [(diag, diag)], which differs from
    what it came with, and this is the camera that is then saved. *)
Theorem scale_not_restored_on_abort :
  let cam := Fixtures.mkCamera PinholeRadialK1 [0%float] in
  let diag := PrimFloat.sqrt (960 * 960 + 540 * 540)%float in
  let run := forwardFit Fixtures.estimateFails cam [] [] in
  let out := calibrateIntrinsic Fixtures.pixelIdentity Fixtures.pixelIdentity
               Fixtures.estimateFails Fixtures.estimateFails
               [] ∅ 0%N cam [] in
  getScale cam = (1000%float, 1000%float)
  /\ fst run = false
  /\ getScale (camera (snd run)) = (diag, diag)
  /\ getScale (fst out) = (diag, diag)
  /\ (diag =? 1000)%float = false
  /\ In (LOG_ERROR "Failed to calibrate") (snd out).
Proof.
  repeat split; try (vm_compute; reflexivity).
  vm_compute. tauto.
Qed.

(** C2, amended. [retrieveLines] returns [false] exactly when the boards
    of one view give fewer than two lines, and such a view adds nothing to
    the lines of its intrinsic; the intrinsic itself is not skipped: for a
    camera of one of the five distortion classes, the first thing that
    follows the "Processing Intrinsic" line is a solver call, whatever
    number of lines was gathered. *)
Theorem few_lines_skip_view_only
    (get_d_pixel get_ud_pixel : IntrinsicBase -> Vec2 -> Vec2)
    (estimateLines : Estimator LineWithPoints)
    (estimatePoints : Estimator PointPair)
    (views : list (IndexT * View)) (boardsAllImages : gmap N CheckerDetector)
    (intrinsicId : IndexT) (cam : IntrinsicBase) (tr : list Event) :
  Spec.hasSchedule (dynamicClass cam) = true ->
  (forall detect,
      fst (retrieveLines detect)
      = negb (length (snd (retrieveLines detect)) <? 2))
  /\ gatherLines views boardsAllImages intrinsicId
     = flat_map (Spec.viewLines boardsAllImages intrinsicId) views
  /\ exists e more,
       isEstimate e = true
       /\ snd (calibrateIntrinsic get_d_pixel get_ud_pixel estimateLines
                 estimatePoints views boardsAllImages intrinsicId cam tr)
          = tr ++ PROCESSING intrinsicId :: e :: more.
Proof.
  intros Hclass. split; [|split].
  - intros detect. unfold retrieveLines.
    destruct (length (Lines.boardsLoop _ _ 0 []) <? 2) eqn:E; simpl;
      now rewrite E.
  - apply gatherLines_views.
  - unfold calibrateIntrinsic. cbv zeta.
    generalize (gatherLines views boardsAllImages intrinsicId) as allLines.
    intros allLines. unfold forwardFit. cbv zeta.
    match goal with
    | |- context [dispatch estimateLines ?msg ?st] =>
        destruct (DriverFacts.first_dispatch estimateLines (fun _ => True)
                    (fun _ _ => I) msg st Hclass) as (e & more & He & E);
        destruct (dispatch estimateLines msg st) as [[|] st1]
    end; cbn [fst snd negb trace camera withCamera] in *.
    + match goal with
      | |- context [inverseFit ?a ?b ?c ?st2] =>
          destruct (DriverFacts.inverseFit_emits a b c (fun _ => True)
                      (fun _ _ => I) st2) as (more2 & E2 & _)
      end.
      rewrite E2. cbn [trace withCamera].
      rewrite (DriverFacts.logQuality_trace (T := LineWithPoints)), E.
      exists e. eexists. split; [exact He|].
      rewrite <- !app_assoc. simpl. reflexivity.
    + exists e, more. split; [exact He|].
      rewrite E, <- app_assoc. reflexivity.
Qed.

Lemma few_lines_skip_view_only_witness :
  exists e more,
    isEstimate e = true
    /\ snd (calibrateIntrinsic Fixtures.pixelIdentity Fixtures.pixelIdentity
              Fixtures.estimateFails Fixtures.estimateFails
              (getViews Fixtures.sceneSmallBoard) Fixtures.boardsSmallBoard
              0%N (Fixtures.mkCamera PinholeRadialK1 [0%float]) [])
       = [] ++ PROCESSING 0%N :: e :: more.
Proof.
  apply (few_lines_skip_view_only Fixtures.pixelIdentity Fixtures.pixelIdentity
           Fixtures.estimateFails Fixtures.estimateFails
           (getViews Fixtures.sceneSmallBoard) Fixtures.boardsSmallBoard
           0%N (Fixtures.mkCamera PinholeRadialK1 [0%float]) [] eq_refl).
Defined.

(** C2 as stated fails: the only view of the intrinsic has a detector
    file that holds a 3 x 3 board, no line survives, and the solver is
    called all the same. *)
Lemma solver_called_without_lines :
  let run := aliceVision_main Fixtures.pixelIdentity Fixtures.pixelIdentity
               Fixtures.estimateFails Fixtures.estimateFails
               (Some Fixtures.sceneSmallBoard) Fixtures.filesSmallBoard
               Fixtures.saveWorks in
  loadBoards Fixtures.filesSmallBoard (getViews Fixtures.sceneSmallBoard) ∅
  = Some Fixtures.boardsSmallBoard
  /\ gatherLines (getViews Fixtures.sceneSmallBoard) Fixtures.boardsSmallBoard
       0%N
     = []
  /\ List.map isEstimate (snd run) = [false; true; false; false; false].
Proof. repeat split; vm_compute; reflexivity. Qed.

(** C3, amended. When the loop meets an intrinsic that is not a pinhole,
    after pinhole ones only, the program logs "Only work for pinhole
    cameras" and returns [EXIT_FAILURE] at once: the trace is that of the
    intrinsics before it followed by the error line, so the intrinsics
    after it are not processed and nothing is saved. (The loop is reached
    once the detector files are loaded, [boardsAllImages] being the map
    they gave.) *)
Theorem non_pinhole_aborts_run
    (get_d_pixel get_ud_pixel : IntrinsicBase -> Vec2 -> Vec2)
    (estimateLines : Estimator LineWithPoints)
    (estimatePoints : Estimator PointPair)
    (views : list (IndexT * View)) (readFile : IndexT -> DetectorFile)
    (boardsAllImages : gmap N CheckerDetector)
    (save : SfMData -> bool)
    (pre post : list (IndexT * IntrinsicBase))
    (intrinsicId : IndexT) (intrinsic : IntrinsicBase) :
  loadBoards readFile views ∅ = Some boardsAllImages ->
  Forall (fun p => isPinhole (snd p) = true) pre ->
  isPinhole intrinsic = false ->
  aliceVision_main get_d_pixel get_ud_pixel estimateLines estimatePoints
    (Some {| getViews := views;
             getIntrinsics := pre ++ (intrinsicId, intrinsic) :: post |})
    readFile save
  = (Exit EXIT_FAILURE,
     snd (intrinsicsLoop get_d_pixel get_ud_pixel estimateLines estimatePoints
            views boardsAllImages pre [])
     ++ [LOG_ERROR "Only work for pinhole cameras"]).
Proof.
  intros Hload Hpre Hnp. unfold aliceVision_main.
  cbn [getViews getIntrinsics]. rewrite Hload.
  rewrite DriverFacts.intrinsicsLoop_app.
  destruct (DriverFacts.intrinsicsLoop_pinholes get_d_pixel get_ud_pixel
              estimateLines estimatePoints views boardsAllImages pre [] Hpre)
    as [out E].
  destruct (intrinsicsLoop _ _ _ _ views boardsAllImages pre [])
    as [r tr]; simpl in E; subst r.
  cbn [intrinsicsLoop snd]. rewrite Hnp. reflexivity.
Qed.

Lemma non_pinhole_aborts_run_witness :
  aliceVision_main Fixtures.pixelIdentity Fixtures.pixelIdentity
    Fixtures.estimateNudges Fixtures.estimateNudges
    (Some Fixtures.sceneMixed) Fixtures.noFiles Fixtures.saveWorks
  = (Exit EXIT_FAILURE, [LOG_ERROR "Only work for pinhole cameras"]).
Proof.
  exact (non_pinhole_aborts_run Fixtures.pixelIdentity Fixtures.pixelIdentity
           Fixtures.estimateNudges Fixtures.estimateNudges
           [] Fixtures.noFiles ∅ Fixtures.saveWorks
           [] [(1%N, Fixtures.mkCamera PinholeRadialK1 [0%float])]
           0%N (Fixtures.mkCamera NonPinhole [0%float])
           eq_refl (List.Forall_nil _) eq_refl).
Defined.

(** C3 as stated fails: in a scene whose first intrinsic is not a pinhole
    and whose second is a radial-K1 pinhole, the run ends with
    [EXIT_FAILURE] and the second intrinsic is never processed. *)
Lemma non_pinhole_stops_the_loop :
  let run := aliceVision_main Fixtures.pixelIdentity Fixtures.pixelIdentity
               Fixtures.estimateNudges Fixtures.estimateNudges
               (Some Fixtures.sceneMixed) Fixtures.noFiles
               Fixtures.saveWorks in
  List.map (fun p => isPinhole (snd p)) (getIntrinsics Fixtures.sceneMixed)
  = [false; true]
  /\ fst run = Exit EXIT_FAILURE
  /\ ~ In (PROCESSING 1%N) (snd run).
Proof.
  repeat split; try (vm_compute; reflexivity).
  vm_compute. intros [H|[]]. discriminate H.
Qed.

(** C5, amended. When the scene is read, no detector file is malformed
    (the loading loop throws on a malformed one), every intrinsic is a
    pinhole and the output can be written, the process exits with
    [EXIT_SUCCESS], whatever the solver returns: an intrinsic whose
    schedule fails is left by [continue] and does not change the exit
    status. *)
Theorem solver_failure_keeps_exit_success
    (get_d_pixel get_ud_pixel : IntrinsicBase -> Vec2 -> Vec2)
    (estimateLines : Estimator LineWithPoints)
    (estimatePoints : Estimator PointPair)
    (sfmData : SfMData) (readFile : IndexT -> DetectorFile)
    (save : SfMData -> bool) :
  Forall (fun pv => readFile (fst pv) <> FileMalformed) (getViews sfmData) ->
  Forall (fun p => isPinhole (snd p) = true) (getIntrinsics sfmData) ->
  (forall data, save data = true) ->
  fst (aliceVision_main get_d_pixel get_ud_pixel estimateLines estimatePoints
         (Some sfmData) readFile save)
  = Exit EXIT_SUCCESS.
Proof.
  intros Hfiles Hall Hsave. unfold aliceVision_main.
  destruct (DriverFacts.loadBoards_parses readFile (getViews sfmData) ∅ Hfiles)
    as [boardsAllImages ->].
  destruct (DriverFacts.intrinsicsLoop_pinholes get_d_pixel get_ud_pixel
              estimateLines estimatePoints (getViews sfmData) boardsAllImages
              (getIntrinsics sfmData) [] Hall) as [out E].
  destruct (intrinsicsLoop _ _ _ _ _ boardsAllImages (getIntrinsics sfmData) [])
    as [r tr]; simpl in E; subst r.
  now rewrite Hsave.
Qed.

Lemma solver_failure_keeps_exit_success_witness :
  fst (aliceVision_main Fixtures.pixelIdentity Fixtures.pixelIdentity
         Fixtures.estimateFails Fixtures.estimateFails
         (Some Fixtures.sceneSmallBoard) Fixtures.filesSmallBoard
         Fixtures.saveWorks)
  = Exit EXIT_SUCCESS.
Proof.
  apply solver_failure_keeps_exit_success.
  - constructor; [discriminate|constructor].
  - repeat constructor.
  - intros data. reflexivity.
Defined.

(** C5 as stated fails: the only intrinsic of the scene fails at the first
    solver stage, the scene is saved, and the exit status is 0. *)
Lemma exit_success_when_all_fail :
  let run := aliceVision_main Fixtures.pixelIdentity Fixtures.pixelIdentity
               Fixtures.estimateFails Fixtures.estimateFails
               (Some Fixtures.sceneK1) Fixtures.noFiles Fixtures.saveWorks in
  fst run = Exit 0%Z
  /\ exists before after saved,
       snd run = [PROCESSING 0%N;
                  ESTIMATE true true [true] false before after false;
                  LOG_ERROR "Failed to calibrate";
                  LOG_ERROR "Error estimating distortion";
                  SAVE saved true].
Proof.
  split; [vm_compute; reflexivity|].
  do 3 eexists. vm_compute. reflexivity.
Qed.

(** The exception path: a malformed detector file ends the run before any
    intrinsic is processed and before anything is saved, although the
    scene holds only pinhole cameras and the output could be written. *)
Example malformed_file_ends_run :
  aliceVision_main Fixtures.pixelIdentity Fixtures.pixelIdentity
    Fixtures.estimateFails Fixtures.estimateFails
    (Some Fixtures.sceneSmallBoard) (fun _ => FileMalformed)
    Fixtures.saveWorks
  = (Uncaught, []).
Proof. reflexivity. Qed.

(** C10. [generatePoints] returns [true] for every camera and every list
    of lines, the empty one included, whatever it filters out; hence no
    run of the program logs "Error generating points". *)
Theorem generatePoints_never_fails
    (get_d_pixel get_ud_pixel : IntrinsicBase -> Vec2 -> Vec2)
    (estimateLines : Estimator LineWithPoints)
    (estimatePoints : Estimator PointPair)
    (pts : list PointPair) (cam : IntrinsicBase)
    (lineWithPoints : list LineWithPoints)
    (load : option SfMData) (readFile : IndexT -> DetectorFile)
    (save : SfMData -> bool) :
  fst (generatePoints get_d_pixel get_ud_pixel pts cam lineWithPoints) = true
  /\ fst (generatePoints get_d_pixel get_ud_pixel pts cam []) = true
  /\ ~ In (LOG_ERROR "Error generating points")
         (snd (aliceVision_main get_d_pixel get_ud_pixel estimateLines
                 estimatePoints load readFile save)).
Proof.
  split; [reflexivity|split; [reflexivity|]].
  intros Hin.
  pose proof (DriverFacts.main_emits get_d_pixel get_ud_pixel estimateLines
                estimatePoints Spec.notPointError load readFile save
                (fun e H => H)) as F.
  rewrite List.Forall_forall in F. exact (F _ Hin eq_refl).
Qed.

(** A run that reaches the point generation with no line, hence no point
    pair, goes on to the inverse fit: three solver calls on lines, three
    on the empty list of pairs. *)
Example inversion_runs_on_no_points :
  let run := aliceVision_main Fixtures.pixelIdentity
               (fun _ _ => (0%float, 0%float))
               Fixtures.estimateNudges Fixtures.estimateNudges
               (Some Fixtures.sceneK1) Fixtures.noFiles Fixtures.saveWorks in
  fst run = Exit EXIT_SUCCESS
  /\ length (Spec.estimateCalls (snd run)) = 6.
Proof. split; vm_compute; reflexivity. Qed.

(** * Further properties *)

(** ** The line extractor: provenance, order and counts *)

Module LinesMore.
Import Lines Spec Cover.

Lemma visited_In stop ks k :
  In k (visited stop ks) -> In k ks /\ stop k = false.
Proof.
  induction ks as [|k0 ks IH]; simpl; [tauto|].
  destruct (stop k0) eqn:E; simpl; [tauto|].
  intros [<-|H]; [auto|]. destruct (IH H). auto.
Qed.

Lemma visited_length stop ks : length (visited stop ks) <= length ks.
Proof.
  induction ks as [|k ks IH]; simpl; [lia|].
  destruct (stop k); simpl; lia.
Qed.

(** The points an inner loop collects, started from an empty line. *)
Lemma scan_points corners stop at_ ks :
  scan corners stop at_ ks []
  = List.map (fun idx => center (cornerAt corners idx))
      (List.filter defined (List.map at_ (visited stop ks))).
Proof. now rewrite LinesFacts.scan_stop, LinesFacts.scan_never. Qed.

Lemma scan_length corners stop at_ ks :
  length (scan corners stop at_ ks []) <= length ks.
Proof.
  rewrite scan_points, length_map.
  etransitivity; [apply List.filter_length_le|].
  rewrite length_map. apply visited_length.
Qed.

(** A candidate whose inner loop stays inside the board. *)
Lemma candidate_fromBoard corners b horiz idx k stop at_ ks
    (row col : nat -> nat) :
  idx < Nat.max (rows b) (cols b) ->
  length ks <= Nat.max (rows b) (cols b) ->
  (forall c, at_ c = cell b (row c) (col c)) ->
  (forall c, In c ks -> stop c = false -> row c < rows b /\ col c < cols b) ->
  fromBoard corners b (newLine horiz idx k (scan corners stop at_ ks [])).
Proof.
  intros Hidx Hlen Hat Hin. unfold fromBoard; simpl.
  split; [exact Hidx|split].
  - etransitivity; [apply scan_length|exact Hlen].
  - rewrite scan_points. apply List.Forall_forall. intros p Hp.
    apply in_map_iff in Hp as (cidx & <- & Hc).
    apply filter_In in Hc as [Hc Hdef].
    apply in_map_iff in Hc as (c & <- & Hc).
    apply visited_In in Hc as [Hc Hstop].
    destruct (Hin c Hc Hstop) as [Hr Hcl].
    exists (row c), (col c). rewrite <- Hat. auto.
Qed.

Lemma family_Forall (Q : LineWithPoints -> Prop) mk n :
  (forall i, i < n -> Q (mk i)) -> Forall Q (family mk n []).
Proof.
  intros H. rewrite LinesFacts.family_nil. apply List.Forall_forall.
  intros l Hl. apply filter_In in Hl as [Hl _].
  apply in_map_iff in Hl as (i & <- & Hi). apply in_seq in Hi.
  apply H. lia.
Qed.

Lemma boardLines_fromBoard corners b k :
  Forall (fun l => board l = k /\ fromBoard corners b l)
         (boardLines corners b k []).
Proof.
  rewrite LinesFacts.boardLines_nil.
  repeat (apply Forall_app; split); apply family_Forall; intros i Hi;
    (split; [reflexivity|]).
  - apply (candidate_fromBoard _ _ _ _ _ _ _ _ (fun _ => i) (fun j => j));
      [lia|rewrite length_seq; lia|reflexivity|].
    intros c Hc _. apply in_seq in Hc. lia.
  - apply (candidate_fromBoard _ _ _ _ _ _ _ _ (fun i0 => i0) (fun _ => i));
      [lia|rewrite length_seq; lia|reflexivity|].
    intros c Hc _. apply in_seq in Hc. lia.
  - apply (candidate_fromBoard _ _ _ _ _ _ _ _ (fun j => i + j) (fun j => j));
      [lia|rewrite length_seq; lia|reflexivity|].
    intros c Hc Hs. apply in_seq in Hc. apply Nat.leb_gt in Hs. lia.
  - apply (candidate_fromBoard _ _ _ _ _ _ _ _ (fun i0 => i0) (fun i0 => i0 + i));
      [lia|rewrite length_seq; lia|reflexivity|].
    intros c Hc Hs. apply in_seq in Hc. apply Nat.leb_gt in Hs. lia.
  - apply (candidate_fromBoard _ _ _ _ _ _ _ _
             (fun i0 => rows b - 1 - i0) (fun i0 => i0 + i));
      [lia|rewrite length_seq; lia|reflexivity|].
    intros c Hc Hs. apply in_seq in Hc. apply Nat.leb_gt in Hs. lia.
Qed.

Lemma boardsLoop_cons corners b boards k :
  boardsLoop corners (b :: boards) k []
  = boardLines corners b k [] ++ boardsLoop corners boards (S k) [].
Proof. simpl. now rewrite LinesFacts.boardsLoop_app. Qed.

Lemma boardsLoop_Forall corners
    (Q : nat -> CheckerBoard -> LineWithPoints -> Prop) boards :
  (forall k b, Forall (Q k b) (boardLines corners b k [])) ->
  forall k0,
    Forall (fun l => exists k b, boards !! k = Some b /\ Q (k0 + k) b l)
           (boardsLoop corners boards k0 []).
Proof.
  intros HQ. induction boards as [|b boards IH]; intros k0.
  - constructor.
  - rewrite boardsLoop_cons. apply Forall_app; split.
    + eapply List.Forall_impl; [|apply (HQ k0 b)].
      intros l Hl. exists 0, b. rewrite Nat.add_0_r. auto.
    + eapply List.Forall_impl; [|apply (IH (S k0))].
      intros l (k & b' & Hk & Hl). exists (S k), b'.
      replace (k0 + S k) with (S k0 + k) by lia. auto.
Qed.

(** Lists of natural numbers in non-decreasing order. *)
Lemma sorted_app (l1 l2 : list nat) :
  StronglySorted le l1 -> StronglySorted le l2 ->
  (forall x y, In x l1 -> In y l2 -> x <= y) ->
  StronglySorted le (l1 ++ l2).
Proof.
  intros H1 H2 H12. induction H1 as [|x l1 Hs IH Hx]; simpl; [exact H2|].
  constructor.
  - apply IH. intros a c Ha Hc. apply H12; [now right|exact Hc].
  - apply Forall_app; split; [exact Hx|].
    apply List.Forall_forall. intros y Hy. apply H12; [now left|exact Hy].
Qed.

Lemma sorted_constant (k : nat) (l : list nat) :
  Forall (eq k) l -> StronglySorted le l.
Proof.
  intros H. induction H as [|x l Hx Hl IH]; constructor; [exact IH|].
  subst x. eapply List.Forall_impl; [|exact Hl]. intros y <-. lia.
Qed.

Lemma boardsLoop_sorted corners boards k0 :
  StronglySorted le (List.map board (boardsLoop corners boards k0 []))
  /\ Forall (fun l => k0 <= board l) (boardsLoop corners boards k0 []).
Proof.
  revert k0; induction boards as [|b boards IH]; intros k0.
  - split; constructor.
  - rewrite boardsLoop_cons. destruct (IH (S k0)) as [Hs Hge].
    pose proof (boardLines_fromBoard corners b k0) as Hb.
    split.
    + rewrite List.map_app. apply sorted_app; [|exact Hs|].
      * apply (sorted_constant k0). apply List.Forall_forall.
        intros x Hx. apply in_map_iff in Hx as (l & <- & Hl).
        rewrite List.Forall_forall in Hb. symmetry. now apply Hb.
      * intros x y Hx Hy.
        apply in_map_iff in Hx as (l & <- & Hl).
        apply in_map_iff in Hy as (l' & <- & Hl').
        rewrite List.Forall_forall in Hb, Hge.
        destruct (Hb l Hl) as [-> _]. specialize (Hge l' Hl'). lia.
    + apply Forall_app; split.
      * eapply List.Forall_impl; [|exact Hb]. intros l [-> _]. lia.
      * eapply List.Forall_impl; [|exact Hge]. intros l Hl. simpl in Hl. lia.
Qed.

End LinesMore.

Module LinesCount.
Import Lines Spec Cover.

Lemma filter_map_length {A B} (f : B -> bool) (g : A -> B) l :
  length (List.filter f (List.map g l))
  = length (List.filter (fun x => f (g x)) l).
Proof.
  induction l as [|x l IH]; simpl; [reflexivity|].
  destruct (f (g x)); simpl; now rewrite IH.
Qed.

Lemma count_below m n s :
  length (List.filter (fun i => i <? m) (seq s n)) = Nat.min n (m - s).
Proof.
  revert s; induction n as [|n IH]; intros s; [reflexivity|].
  cbn [seq List.filter].
  destruct (Nat.ltb_spec s m) as [Hlt|Hge]; cbn [length]; rewrite IH; lia.
Qed.

Lemma filter_all {A} (f : A -> bool) l :
  (forall x, In x l -> f x = true) -> List.filter f l = l.
Proof.
  induction l as [|x l IH]; intros H; simpl; [reflexivity|].
  rewrite (H x) by now left. f_equal. apply IH. intros y Hy. apply H.
  now right.
Qed.

(** On cells that are all defined an inner loop keeps every cell it
    visits. *)
Lemma scan_full_length corners stop at_ ks :
  (forall c, In c ks -> stop c = false -> defined (at_ c) = true) ->
  length (scan corners stop at_ ks []) = length (visited stop ks).
Proof.
  intros H. rewrite LinesMore.scan_points, length_map, filter_all.
  - apply length_map.
  - intros idx Hidx. apply in_map_iff in Hidx as (c & <- & Hc).
    apply LinesMore.visited_In in Hc as [Hc Hs]. now apply H.
Qed.

Lemma visited_offset n a m :
  visited (fun k => n <=? a + k) (seq 0 m) = seq 0 (Nat.min m (n - a)).
Proof.
  rewrite (LinesFacts.visited_ext _ (fun k => n - a <=? k)).
  - now rewrite LinesFacts.visited_bound, Nat.sub_0_r.
  - intros k. destruct (Nat.leb_spec n (a + k)), (Nat.leb_spec (n - a) k);
      try reflexivity; lia.
Qed.

Lemma visited_offset_r n a m :
  visited (fun k => n <=? k + a) (seq 0 m) = seq 0 (Nat.min m (n - a)).
Proof.
  rewrite (LinesFacts.visited_ext _ (fun k => n <=? a + k)).
  - apply visited_offset.
  - intros k. now rewrite Nat.add_comm.
Qed.

Lemma visited_never ks : visited never ks = ks.
Proof. induction ks as [|k ks IH]; simpl; [reflexivity|now rewrite IH]. Qed.

(** How many candidates of a family pass the size test, when candidate
    [i] has [len i] points and passes exactly for [i < m]. *)
Lemma family_count mk n (len : nat -> nat) m :
  (forall i, i < n -> length (points (mk i)) = len i) ->
  (forall i, i < n -> (10 <=? len i) = (i <? m)) ->
  length (family mk n []) = Nat.min n m.
Proof.
  intros Hlen Hm. rewrite LinesFacts.family_nil, filter_map_length.
  rewrite (filter_ext_in _ (fun i => i <? m)).
  - now rewrite count_below, Nat.sub_0_r.
  - intros i Hi. apply in_seq in Hi. unfold kept.
    rewrite Hlen, <- Hm by lia.
    destruct (Nat.ltb_spec (len i) 10), (Nat.leb_spec 10 (len i));
      try reflexivity; lia.
Qed.

Section FullBoard.
Variable corners : list CheckerBoardCorner.
Variable b : CheckerBoard.
Variable k : nat.
Hypothesis Hfull : fullyDefined b.
Hypothesis Hrows : 10 <= rows b.
Hypothesis Hcols : 10 <= cols b.

Lemma rows_count : length (family (rowLine corners b k) (rows b) []) = rows b.
Proof.
  rewrite (family_count _ _ (fun _ => cols b) (rows b)); [lia| |].
  - intros i Hi. unfold rowLine; simpl.
    rewrite scan_full_length, visited_never, length_seq; [reflexivity|].
    intros c Hc _. apply in_seq in Hc. apply Hfull; lia.
  - intros i Hi. destruct (Nat.leb_spec 10 (cols b)), (Nat.ltb_spec i (rows b));
      try reflexivity; lia.
Qed.

Lemma cols_count : length (family (colLine corners b k) (cols b) []) = cols b.
Proof.
  rewrite (family_count _ _ (fun _ => rows b) (cols b)); [lia| |].
  - intros j Hj. unfold colLine; simpl.
    rewrite scan_full_length, visited_never, length_seq; [reflexivity|].
    intros c Hc _. apply in_seq in Hc. apply Hfull; lia.
  - intros j Hj. destruct (Nat.leb_spec 10 (rows b)), (Nat.ltb_spec j (cols b));
      try reflexivity; lia.
Qed.

Lemma diag1_count :
  length (family (diag1Line corners b k) (rows b) []) = rows b - 9.
Proof.
  rewrite (family_count _ _ (fun i => Nat.min (cols b) (rows b - i))
             (rows b - 9)); [lia| |].
  - intros i Hi. unfold diag1Line; simpl.
    rewrite scan_full_length, visited_offset, length_seq; [reflexivity|].
    intros c Hc Hs. apply in_seq in Hc. apply Nat.leb_gt in Hs.
    apply Hfull; lia.
  - intros i Hi.
    destruct (Nat.leb_spec 10 (Nat.min (cols b) (rows b - i))),
             (Nat.ltb_spec i (rows b - 9)); try reflexivity; lia.
Qed.

Lemma diag2_count :
  length (family (diag2Line corners b k) (cols b) []) = cols b - 9.
Proof.
  rewrite (family_count _ _ (fun j => Nat.min (rows b) (cols b - j))
             (cols b - 9)); [lia| |].
  - intros j Hj. unfold diag2Line; simpl.
    rewrite scan_full_length, visited_offset_r, length_seq; [reflexivity|].
    intros c Hc Hs. apply in_seq in Hc. apply Nat.leb_gt in Hs.
    apply Hfull; lia.
  - intros j Hj.
    destruct (Nat.leb_spec 10 (Nat.min (rows b) (cols b - j))),
             (Nat.ltb_spec j (cols b - 9)); try reflexivity; lia.
Qed.

Lemma diag3_count :
  length (family (diag3Line corners b k) (cols b) []) = cols b - 9.
Proof.
  rewrite (family_count _ _ (fun j => Nat.min (rows b) (cols b - j))
             (cols b - 9)); [lia| |].
  - intros j Hj. unfold diag3Line; simpl.
    rewrite scan_full_length, visited_offset_r, length_seq; [reflexivity|].
    intros c Hc Hs. apply in_seq in Hc. apply Nat.leb_gt in Hs.
    apply Hfull; lia.
  - intros j Hj.
    destruct (Nat.leb_spec 10 (Nat.min (rows b) (cols b - j))),
             (Nat.ltb_spec j (cols b - 9)); try reflexivity; lia.
Qed.

Lemma boardLines_count :
  length (boardLines corners b k []) = 2 * rows b + 3 * cols b - 27.
Proof.
  rewrite LinesFacts.boardLines_nil, !length_app.
  rewrite rows_count, cols_count, diag1_count, diag2_count, diag3_count.
  lia.
Qed.

End FullBoard.

Lemma boardsLoop_count corners boards k0 :
  Forall (fun b => fullyDefined b /\ 10 <= rows b /\ 10 <= cols b) boards ->
  length (boardsLoop corners boards k0 [])
  = list_sum (List.map (fun b => 2 * rows b + 3 * cols b - 27) boards).
Proof.
  revert k0; induction boards as [|b boards IH]; intros k0 Hall.
  - reflexivity.
  - rewrite LinesMore.boardsLoop_cons, length_app.
    apply Forall_cons_1 in Hall as [(Hfull & Hr & Hc) Hall].
    rewrite (boardLines_count corners b k0 Hfull Hr Hc).
    rewrite (IH (S k0) Hall). reflexivity.
Qed.

End LinesCount.

(** A detector whose boards all have fewer than 10 rows and fewer than 10
    columns gives no line at all: [retrieveLines] returns [false] with an
    empty vector. *)
Theorem retrieveLines_small_boards (detect : CheckerDetector) :
  Forall (fun b => rows b < 10 /\ cols b < 10) (getBoards detect) ->
  retrieveLines detect = (false, []).
Proof.
  intros Hsmall.
  assert (E : Lines.boardsLoop (getCorners detect) (getBoards detect) 0 [] = []).
  { pose proof (LinesFacts.boardsLoop_wellFormed (getCorners detect)
                  (getBoards detect) 0) as Hwf.
    pose proof (LinesMore.boardsLoop_Forall (getCorners detect)
                  (fun k b l => board l = k /\ Cover.fromBoard (getCorners detect) b l)
                  (getBoards detect)
                  (fun k b => LinesMore.boardLines_fromBoard _ b k) 0) as Hfrom.
    destruct (Lines.boardsLoop _ _ 0 []) as [|l ls]; [reflexivity|].
    exfalso.
    apply Forall_inv in Hwf. apply Forall_inv in Hfrom.
    destruct Hwf as [Hten _].
    destruct Hfrom as (k & b & Hb & _ & _ & Hlen & _).
    rewrite List.Forall_forall in Hsmall.
    assert (Hin : In b (getBoards detect)).
    { apply list_elem_of_In. eapply list_elem_of_lookup_2. exact Hb. }
    specialize (Hsmall b Hin). lia. }
  unfold retrieveLines. now rewrite E.
Qed.

Lemma retrieveLines_small_boards_witness :
  retrieveLines (Fixtures.detector 9 9) = (false, []).
Proof.
  apply retrieveLines_small_boards. repeat constructor.
Defined.


(** The lines come out board by board: along the output the [board]
    field never decreases. *)
Theorem retrieveLines_board_order (detect : CheckerDetector) :
  StronglySorted le (List.map board (snd (retrieveLines detect))).
Proof.
  rewrite retrieveLines_snd. apply LinesMore.boardsLoop_sorted.
Qed.

(** When every board of the detector has at least 10 rows and 10 columns
    and all its cells defined, each board [r x c] gives exactly
    [2 r + 3 c - 27] lines: [r] rows, [c] columns, [r - 9] diagonals of the
    first family and [c - 9] of each of the other two. *)
Theorem retrieveLines_full_board_count (detect : CheckerDetector) :
  Forall (fun b => Cover.fullyDefined b /\ 10 <= rows b /\ 10 <= cols b)
         (getBoards detect) ->
  length (snd (retrieveLines detect))
  = list_sum (List.map (fun b => 2 * rows b + 3 * cols b - 27)
                       (getBoards detect)).
Proof.
  rewrite retrieveLines_snd. apply LinesCount.boardsLoop_count.
Qed.

Lemma retrieveLines_full_board_count_witness :
  length (snd (retrieveLines (Fixtures.detector 10 12))) = 29.
Proof.
  apply (retrieveLines_full_board_count (Fixtures.detector 10 12)).
  constructor; [|constructor].
  split; [|split; simpl; lia].
  intros i j Hi Hj. unfold Spec.defined, UndefinedIndexT. simpl in *.
  apply negb_true_iff, N.eqb_neq. lia.
Defined.

(** ** The schedules: stages, aborts and composition *)

Module ScheduleMore.

(** Opens a run of [dispatch] on every class and every outcome of the
    solver calls. *)
Ltac open_dispatch st :=
  destruct st as [[cls w0 h0 sc off ps] stats its tr];
  destruct cls;
  unfold dispatch, orContinue, estimateDistortionK1, estimateDistortionK3,
    estimateDistortion3DER4, estimateDistortion3DEA4, estimateDistortion3DELD,
    andThen, ret, tryEstimate, withCamera, log;
  cbn -[lookup initParams3DEA4 initParams3DELD];
  repeat match goal with
    | |- context [match ?est ?c ?s ?i ?ls ?lo ?lk ?ll with pair _ _ => _ end] =>
        destruct (est c s i ls lo lk ll) as [[|] [[? ?] ?]];
        cbn -[lookup initParams3DEA4 initParams3DELD]
    end;
  repeat rewrite <- app_assoc; cbn [app].

Ltac pick_prefix :=
  first [ exists 0; reflexivity | exists 1; reflexivity
        | exists 2; reflexivity | exists 3; reflexivity
        | exists 4; reflexivity | exists 5; reflexivity ].

Ltac pick_failed :=
  first [ eexists [], _; split; [reflexivity|]
        | eexists [_], _; split; [reflexivity|]
        | eexists [_; _], _; split; [reflexivity|]
        | eexists [_; _; _], _; split; [reflexivity|]
        | eexists [_; _; _; _], _; split; [reflexivity|] ].

End ScheduleMore.

(** The solver calls a run of [dispatch] makes receive, in order, the lock
    arguments of the first stages of the table of the camera's class, and
    of all its stages when the run returns [true] (3 stages for radial-K1,
    4 for radial-K3 and 3DE radial-4, 5 for 3DE anamorphic-4 and 3DE
    classic-LD, none for any other class). *)
Theorem dispatch_follows_table {T} (estimate : Estimator T) (msg : string)
    (st : Calib T) :
  let run := dispatch estimate msg st in
  let table := Cover.scheduleTable (dynamicClass (camera st)) in
  exists more,
    trace (snd run) = trace st ++ more
    /\ (exists n, Cover.callArgs more = take n table)
    /\ (fst run = true -> Cover.callArgs more = table).
Proof.
  cbv zeta. ScheduleMore.open_dispatch st.
  all: eexists; split; [reflexivity|].
  all: split; [ScheduleMore.pick_prefix|].
  all: intros Hok; try discriminate Hok; reflexivity.
Qed.

(** A schedule stops at the first solver call that fails: a run of
    [dispatch] that returns [true] holds no failed call; one that returns
    [false] is a row of successful calls, then one failed call, then the
    lines "Failed to calibrate" and the caller's message, and nothing
    else. *)
Theorem dispatch_stops_at_first_failure {T} (estimate : Estimator T)
    (msg : string) (st : Calib T) :
  let run := dispatch estimate msg st in
  exists more,
    trace (snd run) = trace st ++ more
    /\ (fst run = true -> Forall (fun e => Cover.failedCall e = false) more)
    /\ (fst run = false ->
        exists pre e,
          more = pre ++ [e; LOG_ERROR "Failed to calibrate"; LOG_ERROR msg]
          /\ Cover.failedCall e = true
          /\ Forall (fun e' => isEstimate e' = true
                               /\ Cover.failedCall e' = false) pre).
Proof.
  cbv zeta. ScheduleMore.open_dispatch st.
  all: eexists; split; [reflexivity|].
  all: split;
    [intros Hok; try discriminate Hok; repeat constructor|].
  all: intros Hok; try discriminate Hok.
  all: ScheduleMore.pick_failed; split; [reflexivity|repeat constructor].
Qed.

(** Stages compose: in a run of [dispatch] every solver call starts from
    the camera the previous call left, the first one from the camera the
    schedule received (with its parameter vector re-initialised for the
    two 3DE models that do so, untouched for the three others), and the
    camera the run leaves is the one the last call left. *)
Theorem dispatch_chains_stages {T} (estimate : Estimator T) (msg : string)
    (st : Calib T) :
  let run := dispatch estimate msg st in
  exists more,
    trace (snd run) = trace st ++ more
    /\ Cover.chained (Cover.scheduleInit (camera st)) more
    /\ camera (snd run) = Cover.lastCamera (Cover.scheduleInit (camera st)) more.
Proof.
  cbv zeta. ScheduleMore.open_dispatch st.
  all: eexists; split; [reflexivity|].
  all: split; [cbn; repeat split; reflexivity|reflexivity].
Qed.

(** The 3DEAnamorphic4 schedule, run from a 14-entry vector with a solver
    that leaves locked parameters alone, keeps entries 12 and 13 at 1.0:
    they are locked in every stage, so the camera the run leaves holds
    them whether the run succeeds or stops at a failed stage. *)
Theorem schedule3DEA4_unit_entries {T} (estimate : Estimator T)
    (cam : IntrinsicBase) (stats : Statistics) (its : list T) (tr : list Event)
    (p0 p1 p2 p3 p4 p5 p6 p7 p8 p9 p10 p11 p12 p13 : double) :
  Spec.respectsLocks estimate ->
  let prior := [p0; p1; p2; p3; p4; p5; p6; p7; p8; p9; p10; p11; p12; p13] in
  let st := {| camera := setDistortionParams prior cam;
               statistics := stats; items := its; trace := tr |} in
  let final := camera (snd (estimateDistortion3DEA4 estimate st)) in
  getDistortionParams final !! 12 = Some 1%float
  /\ getDistortionParams final !! 13 = Some 1%float.
Proof.
  intros Hlocks prior st final. subst final st prior.
  unfold estimateDistortion3DEA4, andThen, ret, tryEstimate, withCamera, log.
  cbn [camera statistics items trace getDistortionParams
       setDistortionParams initParams3DEA4].
  repeat ScheduleFacts.next_call Hlocks.
  all: cbn -[lookup]; ScheduleFacts.chase_locks; split; reflexivity.
Qed.

Lemma schedule3DEA4_unit_entries_witness :
  let half := 0.5%float in
  let st := {| camera := setDistortionParams (repeat half 14)
                           (Fixtures.mkCamera Pinhole3DEAnamorphic4 []);
               statistics := newStatistics; items := @nil LineWithPoints;
               trace := [] |} in
  let final := camera (snd (estimateDistortion3DEA4 Fixtures.estimateNudges st)) in
  getDistortionParams final !! 12 = Some 1%float
  /\ getDistortionParams final !! 13 = Some 1%float.
Proof.
  intros half st final.
  exact (schedule3DEA4_unit_entries Fixtures.estimateNudges
           (Fixtures.mkCamera Pinhole3DEAnamorphic4 []) newStatistics [] []
           half half half half half half half half half half half half half half
           ScheduleFacts.estimateNudges_respectsLocks).
Defined.

(** ** Point generation reads the points only *)

(** [generatePoints] depends on the lines through their points alone:
    the fitted [angle] and [dist] and the provenance fields of a line do
    not change the pairs it builds. *)
Theorem generatePoints_reads_points_only
    (get_d_pixel get_ud_pixel : IntrinsicBase -> Vec2 -> Vec2)
    (pts : list PointPair) (cam : IntrinsicBase)
    (lines1 lines2 : list LineWithPoints) :
  List.map points lines1 = List.map points lines2 ->
  generatePoints get_d_pixel get_ud_pixel pts cam lines1
  = generatePoints get_d_pixel get_ud_pixel pts cam lines2.
Proof.
  intros H.
  assert (E : forall ls,
             generatePoints get_d_pixel get_ud_pixel pts cam ls
             = (true, snd (generatePoints get_d_pixel get_ud_pixel pts cam ls)))
    by reflexivity.
  rewrite (E lines1), (E lines2), !PointFacts.generatePoints_filter.
  now rewrite !flat_map_concat_map, H.
Qed.

Lemma generatePoints_reads_points_only_witness :
  let cam := Fixtures.mkCamera PinholeRadialK1 [0%float] in
  let pts := [(3%float, 4%float); (5%float, 6%float)] in
  generatePoints Fixtures.pixelIdentity Fixtures.pixelIdentity [] cam
    [Lines.newLine true 0 0 pts]
  = generatePoints Fixtures.pixelIdentity Fixtures.pixelIdentity [] cam
      [{| angle := 0.25%float; dist := 7%float; horizontal := false;
          index := 3; board := 2; points := pts |}].
Proof.
  intros cam pts. apply generatePoints_reads_points_only. reflexivity.
Defined.

(** ** The driver: gathering, unsupported models, saving *)

Module DriverMore.
Import Spec Cover.

Lemma viewLines_zero_or_two boardsAllImages intrinsicId pv :
  Forall wellFormedLine (viewLines boardsAllImages intrinsicId pv)
  /\ length (viewLines boardsAllImages intrinsicId pv) <> 1.
Proof.
  unfold viewLines. cbv zeta.
  set (detect := default emptyDetector (boardsAllImages !! fst pv)).
  destruct (getIntrinsicId (snd pv) =? intrinsicId)%N; simpl;
    [|split; [constructor|discriminate]].
  pose proof (LinesFacts.boardsLoop_wellFormed (getCorners detect)
                (getBoards detect) 0) as Hwf.
  unfold retrieveLines.
  destruct (Nat.ltb_spec (length (Lines.boardsLoop (getCorners detect)
                                    (getBoards detect) 0 [])) 2); simpl.
  - split; [constructor|discriminate].
  - split; [exact Hwf|lia].
Qed.

Lemma flat_map_not_one {A B} (f : A -> list B) l :
  (forall x, length (f x) <> 1) -> length (flat_map f l) <> 1.
Proof.
  intros H. induction l as [|x l IH]; simpl; [discriminate|].
  rewrite length_app. specialize (H x). lia.
Qed.

(** The events of a run of [dispatch] are log lines and solver calls with
    the scale locked. *)
Lemma dispatch_body {T} (estimate : Estimator T) msg st :
  exists more,
    trace (snd (dispatch estimate msg st)) = trace st ++ more
    /\ Forall bodyEvent more.
Proof.
  ScheduleMore.open_dispatch st.
  all: eexists; split; [reflexivity|].
  all: repeat (constructor; [repeat split|]); constructor.
Qed.

Lemma logQuality_body title :
  Forall bodyEvent [LOG_INFO title; LOG_INFO "Mean of error (stddev): ";
                    LOG_INFO "Median of error: "].
Proof. repeat (constructor; [repeat split|]); constructor. Qed.

Section Body.
Variable get_d_pixel get_ud_pixel : IntrinsicBase -> Vec2 -> Vec2.
Variable estimateLines : Estimator LineWithPoints.
Variable estimatePoints : Estimator PointPair.
Variable views : list (IndexT * View).
Variable boardsAllImages : gmap N CheckerDetector.

Lemma forwardFit_body cam allLines tr :
  exists more,
    trace (snd (forwardFit estimateLines cam allLines tr)) = tr ++ more
    /\ Forall bodyEvent more.
Proof.
  unfold forwardFit. cbv zeta.
  match goal with
  | |- context [dispatch estimateLines ?msg ?st] =>
      destruct (dispatch_body estimateLines msg st) as (more & E & F);
      destruct (dispatch estimateLines msg st) as [[|] st1]
  end; cbn [fst snd negb trace withCamera] in *.
  - rewrite (DriverFacts.logQuality_trace (T := LineWithPoints)), E,
      <- app_assoc.
    eexists; split; [reflexivity|].
    apply Forall_app; split; [exact F|apply logQuality_body].
  - now exists more.
Qed.

Lemma inverseFit_body st :
  exists more,
    trace (inverseFit get_d_pixel get_ud_pixel estimatePoints st)
    = trace st ++ more
    /\ Forall bodyEvent more.
Proof.
  unfold inverseFit, generatePoints. cbv zeta. cbn [negb].
  match goal with
  | |- context [dispatch estimatePoints ?msg ?st0] =>
      destruct (dispatch_body estimatePoints msg st0) as (more & E & F);
      destruct (dispatch estimatePoints msg st0) as [[|] st1]
  end; cbn [fst snd negb trace withCamera] in *.
  - rewrite (DriverFacts.logQuality_trace (T := PointPair)), E, <- app_assoc.
    eexists; split; [reflexivity|].
    apply Forall_app; split; [exact F|apply logQuality_body].
  - now exists more.
Qed.

Lemma calibrateIntrinsic_body intrinsicId cam tr :
  exists more,
    snd (calibrateIntrinsic get_d_pixel get_ud_pixel estimateLines
           estimatePoints views boardsAllImages intrinsicId cam tr)
    = tr ++ PROCESSING intrinsicId :: more
    /\ Forall bodyEvent more.
Proof.
  unfold calibrateIntrinsic. cbv zeta.
  match goal with
  | |- context [forwardFit estimateLines cam ?ls ?tr0] =>
      destruct (forwardFit_body cam ls tr0) as (more & E & F);
      destruct (forwardFit estimateLines cam ls tr0) as [[|] st]
  end; simpl in *.
  - destruct (inverseFit_body st) as (more2 & E2 & F2).
    exists (more ++ more2). rewrite E2, E, <- !app_assoc.
    split; [reflexivity|now apply Forall_app].
  - exists more. now rewrite E, <- app_assoc.
Qed.

Lemma processedIds_body more :
  Forall bodyEvent more -> processedIds more = [].
Proof.
  induction 1 as [|e more (_ & Hp & _) _ IH]; [reflexivity|].
  unfold processedIds in *. simpl. rewrite IH.
  destruct e; try reflexivity; discriminate Hp.
Qed.

(** What the loop over the intrinsics appends and returns. *)
Lemma intrinsicsLoop_body todo tr :
  exists more,
    snd (intrinsicsLoop get_d_pixel get_ud_pixel estimateLines estimatePoints
           views boardsAllImages todo tr) = tr ++ more
    /\ Forall (fun e => isSave e = false /\ scaleLocked e) more
    /\ processedIds more = List.map fst (pinholePrefix todo)
    /\ forall out,
         fst (intrinsicsLoop get_d_pixel get_ud_pixel estimateLines
                estimatePoints views boardsAllImages todo tr) = Some out ->
         List.map fst out = List.map fst todo.
Proof.
  revert tr; induction todo as [|[intrinsicId cam] todo IH]; intros tr;
    simpl.
  - exists []. rewrite app_nil_r. repeat split; [constructor|].
    now intros out [= <-].
  - destruct (isPinhole cam); simpl.
    + destruct (calibrateIntrinsic_body intrinsicId cam tr) as (more & E & F).
      destruct (calibrateIntrinsic _ _ _ _ _ _ intrinsicId cam tr)
        as [cam' tr']; simpl in E.
      destruct (IH tr') as (more2 & E2 & F2 & Hids & Hout).
      destruct (intrinsicsLoop _ _ _ _ _ _ todo tr') as [r tr''];
        simpl in *.
      exists ((PROCESSING intrinsicId :: more) ++ more2).
      rewrite E2, E, <- app_assoc. split; [reflexivity|]. split; [|split].
      * apply Forall_app; split; [|exact F2].
        constructor; [now split|].
        eapply List.Forall_impl; [|exact F]. intros e (Hs & _ & Hl). now split.
      * unfold processedIds in *. rewrite flat_map_app. simpl.
        fold (processedIds more). rewrite (processedIds_body more F), Hids.
        reflexivity.
      * intros out Hr. destruct r as [out'|]; [|discriminate Hr].
        injection Hr as <-. simpl. f_equal. now apply Hout.
    + eexists; split; [reflexivity|]. split; [|split].
      * repeat constructor.
      * reflexivity.
      * intros out Hr. discriminate Hr.
Qed.

End Body.

End DriverMore.

(** The lines gathered for an intrinsic are all well formed, and there are
    never exactly one of them: each view adds none or at least two, so
    the solver receives no line or at least two. *)
Theorem gatherLines_zero_or_two (views : list (IndexT * View))
    (boardsAllImages : gmap N CheckerDetector) (intrinsicId : IndexT) :
  Forall Spec.wellFormedLine (gatherLines views boardsAllImages intrinsicId)
  /\ length (gatherLines views boardsAllImages intrinsicId) <> 1.
Proof.
  rewrite gatherLines_views. split.
  - apply List.Forall_forall. intros l Hl.
    apply in_flat_map in Hl as (pv & _ & Hl).
    destruct (DriverMore.viewLines_zero_or_two boardsAllImages intrinsicId pv)
      as [Hwf _].
    rewrite List.Forall_forall in Hwf. now apply Hwf.
  - apply DriverMore.flat_map_not_one. intros pv.
    apply DriverMore.viewLines_zero_or_two.
Qed.

(** Views that use another intrinsic do not count: the lines gathered for
    an intrinsic are those gathered from its own views alone. *)
Theorem gatherLines_ignores_other_views (views : list (IndexT * View))
    (boardsAllImages : gmap N CheckerDetector) (intrinsicId : IndexT) :
  gatherLines views boardsAllImages intrinsicId
  = gatherLines
      (List.filter (fun pv => (getIntrinsicId (snd pv) =? intrinsicId)%N) views)
      boardsAllImages intrinsicId.
Proof.
  rewrite !gatherLines_views.
  induction views as [|pv views IH]; simpl; [reflexivity|].
  destruct (getIntrinsicId (snd pv) =? intrinsicId)%N eqn:E; simpl.
  - now rewrite IH.
  - rewrite IH. unfold Spec.viewLines at 1. now rewrite E.
Qed.

(** A view whose detector file was missing adds nothing: when none of the
    views of an intrinsic has an entry in the map of detectors, no line is
    gathered for it. *)
Theorem gatherLines_missing_detectors (views : list (IndexT * View))
    (boardsAllImages : gmap N CheckerDetector) (intrinsicId : IndexT) :
  (forall pv, In pv views -> getIntrinsicId (snd pv) = intrinsicId ->
              boardsAllImages !! fst pv = None) ->
  gatherLines views boardsAllImages intrinsicId = [].
Proof.
  intros H. rewrite gatherLines_views.
  induction views as [|pv views IH]; simpl; [reflexivity|].
  rewrite IH by (intros pv' Hin; apply H; now right).
  rewrite app_nil_r. unfold Spec.viewLines.
  destruct (N.eqb_spec (getIntrinsicId (snd pv)) intrinsicId) as [E|E];
    [|reflexivity].
  rewrite (H pv (or_introl eq_refl) E). reflexivity.
Qed.

Lemma gatherLines_missing_detectors_witness :
  gatherLines (getViews Fixtures.sceneSmallBoard) ∅ 0%N = [].
Proof.
  apply gatherLines_missing_detectors. intros pv _ _. apply lookup_empty.
Defined.

(** A pinhole camera of a class without a schedule is reported and left as
    it is: the body of the loop makes no solver call, logs "Incompatible
    camera distortion model" once for each of the two fits, and the camera
    it leaves equals the one it received. *)
Theorem calibrateIntrinsic_no_schedule
    (get_d_pixel get_ud_pixel : IntrinsicBase -> Vec2 -> Vec2)
    (estimateLines : Estimator LineWithPoints)
    (estimatePoints : Estimator PointPair)
    (views : list (IndexT * View)) (boardsAllImages : gmap N CheckerDetector)
    (intrinsicId : IndexT) (cam : IntrinsicBase) (tr : list Event) :
  Spec.hasSchedule (dynamicClass cam) = false ->
  calibrateIntrinsic get_d_pixel get_ud_pixel estimateLines estimatePoints
    views boardsAllImages intrinsicId cam tr
  = (cam,
     tr ++ [PROCESSING intrinsicId;
            LOG_ERROR "Incompatible camera distortion model";
            LOG_INFO "Result quality of calibration: ";
            LOG_INFO "Mean of error (stddev): ";
            LOG_INFO "Median of error: ";
            LOG_ERROR "Incompatible camera distortion model";
            LOG_INFO "Result quality of inversion: ";
            LOG_INFO "Mean of error (stddev): ";
            LOG_INFO "Median of error: "]).
Proof.
  intros H. destruct cam as [cls w0 h0 sc off ps].
  destruct cls; try discriminate H;
    unfold calibrateIntrinsic, forwardFit, inverseFit, generatePoints,
      dispatch, logQuality, log, withCamera, setScale;
    cbn; repeat rewrite <- app_assoc; reflexivity.
Qed.

Lemma calibrateIntrinsic_no_schedule_witness :
  let cam := Fixtures.mkCamera PinholeOther [0%float] in
  fst (calibrateIntrinsic Fixtures.pixelIdentity Fixtures.pixelIdentity
         Fixtures.estimateNudges Fixtures.estimateNudges [] ∅ 0%N cam [])
  = cam.
Proof.
  intros cam.
  now rewrite (calibrateIntrinsic_no_schedule Fixtures.pixelIdentity
                 Fixtures.pixelIdentity Fixtures.estimateNudges
                 Fixtures.estimateNudges [] ∅ 0%N cam [] eq_refl).
Defined.

(** When both solvers leave the pixel scale alone, the camera that the
    body of the loop leaves in the scene has its original scale if the
    forward schedule went through (whatever the inverse fit did), and the
    scale [(diag, diag)] if the forward schedule failed. *)
Theorem calibrateIntrinsic_final_scale
    (get_d_pixel get_ud_pixel : IntrinsicBase -> Vec2 -> Vec2)
    (estimateLines : Estimator LineWithPoints)
    (estimatePoints : Estimator PointPair)
    (views : list (IndexT * View)) (boardsAllImages : gmap N CheckerDetector)
    (intrinsicId : IndexT) (cam : IntrinsicBase) (tr : list Event) :
  Spec.keepsScale estimateLines ->
  Spec.keepsScale estimatePoints ->
  getScale (fst (calibrateIntrinsic get_d_pixel get_ud_pixel estimateLines
                   estimatePoints views boardsAllImages intrinsicId cam tr))
  = if fst (forwardFit estimateLines cam
              (gatherLines views boardsAllImages intrinsicId)
              (tr ++ [PROCESSING intrinsicId]))
    then getScale cam
    else (Spec.diagOf cam, Spec.diagOf cam).
Proof.
  intros HL HP. unfold calibrateIntrinsic, forwardFit. cbv zeta.
  match goal with
  | |- context [dispatch estimateLines ?msg ?st] =>
      pose proof (DriverFacts.stable_dispatch estimateLines HL msg st) as H1;
      destruct (dispatch estimateLines msg st) as [[|] st1]
  end; cbn [fst snd negb] in *.
  - unfold inverseFit, generatePoints. cbv zeta. cbn [negb].
    match goal with
    | |- context [dispatch estimatePoints ?msg ?st0] =>
        pose proof (DriverFacts.stable_dispatch estimatePoints HP msg st0) as H2;
        destruct (dispatch estimatePoints msg st0) as [[|] st2]
    end; cbn [fst snd negb] in *; exact H2.
  - exact H1.
Qed.

Lemma calibrateIntrinsic_final_scale_witness :
  let cam := Fixtures.mkCamera PinholeRadialK1 [0%float] in
  getScale (fst (calibrateIntrinsic Fixtures.pixelIdentity
                   Fixtures.pixelIdentity Fixtures.estimateNudges
                   Fixtures.estimateFails [] ∅ 0%N cam []))
  = getScale cam.
Proof.
  intros cam.
  exact (calibrateIntrinsic_final_scale Fixtures.pixelIdentity
           Fixtures.pixelIdentity Fixtures.estimateNudges
           Fixtures.estimateFails [] ∅ 0%N cam []
           (fun _ _ _ _ _ _ _ => eq_refl) (fun _ _ _ _ _ _ _ => eq_refl)).
Defined.

(** When the scene is read, no detector file is malformed and every
    intrinsic is a pinhole, the program calls [Save] exactly once, as its
    last action but for the error line of a failed save; what it hands
    over has the views of the input and the intrinsics of the input under
    the same ids in the same order; and the exit status is [EXIT_SUCCESS]
    exactly when that save succeeds. *)
Theorem main_saves_same_scene
    (get_d_pixel get_ud_pixel : IntrinsicBase -> Vec2 -> Vec2)
    (estimateLines : Estimator LineWithPoints)
    (estimatePoints : Estimator PointPair)
    (sfmData : SfMData) (readFile : IndexT -> DetectorFile)
    (save : SfMData -> bool) :
  Forall (fun pv => readFile (fst pv) <> FileMalformed) (getViews sfmData) ->
  Forall (fun p => isPinhole (snd p) = true) (getIntrinsics sfmData) ->
  exists out tr,
    let data := {| getViews := getViews sfmData; getIntrinsics := out |} in
    List.map fst out = List.map fst (getIntrinsics sfmData)
    /\ Forall (fun e => Cover.isSave e = false) tr
    /\ aliceVision_main get_d_pixel get_ud_pixel estimateLines estimatePoints
         (Some sfmData) readFile save
       = (Exit (if save data then EXIT_SUCCESS else EXIT_FAILURE),
          tr ++ SAVE data (save data)
             :: (if save data then []
                 else [LOG_ERROR "The output SfMData file '"])).
Proof.
  intros Hfiles Hall. unfold aliceVision_main.
  destruct (DriverFacts.loadBoards_parses readFile (getViews sfmData) ∅ Hfiles)
    as [boardsAllImages ->].
  destruct (DriverFacts.intrinsicsLoop_pinholes get_d_pixel get_ud_pixel
              estimateLines estimatePoints (getViews sfmData) boardsAllImages
              (getIntrinsics sfmData) [] Hall) as [out E].
  destruct (DriverMore.intrinsicsLoop_body get_d_pixel get_ud_pixel
              estimateLines estimatePoints (getViews sfmData) boardsAllImages
              (getIntrinsics sfmData) []) as (more & Etr & F & _ & Hout).
  destruct (intrinsicsLoop _ _ _ _ _ boardsAllImages (getIntrinsics sfmData) [])
    as [r tr]; simpl in *; subst r tr.
  exists out, more. cbv zeta. split; [now apply Hout|]. split.
  - eapply List.Forall_impl; [|exact F]. now intros e [Hs _].
  - destruct (save _); reflexivity.
Qed.

Lemma main_saves_same_scene_witness :
  exists out tr,
    let data := {| getViews := getViews Fixtures.sceneSmallBoard;
                   getIntrinsics := out |} in
    List.map fst out = List.map fst (getIntrinsics Fixtures.sceneSmallBoard)
    /\ Forall (fun e => Cover.isSave e = false) tr
    /\ aliceVision_main Fixtures.pixelIdentity Fixtures.pixelIdentity
         Fixtures.estimateNudges Fixtures.estimateNudges
         (Some Fixtures.sceneSmallBoard) Fixtures.filesSmallBoard
         (fun _ => false)
       = (Exit (if false then EXIT_SUCCESS else EXIT_FAILURE),
          tr ++ SAVE data false
             :: (if false then []
                 else [LOG_ERROR "The output SfMData file '"])).
Proof.
  apply (main_saves_same_scene Fixtures.pixelIdentity Fixtures.pixelIdentity
           Fixtures.estimateNudges Fixtures.estimateNudges
           Fixtures.sceneSmallBoard Fixtures.filesSmallBoard (fun _ => false)).
  - constructor; [discriminate|constructor].
  - repeat constructor.
Defined.

(** In every run, every call to the solver has its scale lock set. *)
Theorem main_locks_scale
    (get_d_pixel get_ud_pixel : IntrinsicBase -> Vec2 -> Vec2)
    (estimateLines : Estimator LineWithPoints)
    (estimatePoints : Estimator PointPair)
    (load : option SfMData) (readFile : IndexT -> DetectorFile)
    (save : SfMData -> bool) :
  Forall Cover.scaleLocked
    (snd (aliceVision_main get_d_pixel get_ud_pixel estimateLines
            estimatePoints load readFile save)).
Proof.
  unfold aliceVision_main. destruct load as [sfmData|];
    [|repeat constructor].
  destruct (loadBoards readFile (getViews sfmData) ∅) as [boardsAllImages|];
    [|constructor].
  destruct (DriverMore.intrinsicsLoop_body get_d_pixel get_ud_pixel
              estimateLines estimatePoints (getViews sfmData) boardsAllImages
              (getIntrinsics sfmData) []) as (more & Etr & F & _).
  assert (Fl : Forall Cover.scaleLocked more).
  { eapply List.Forall_impl; [|exact F]. now intros e [_ Hl]. }
  destruct (intrinsicsLoop _ _ _ _ _ boardsAllImages (getIntrinsics sfmData) [])
    as [[out|] tr]; simpl in *; subst tr; [|exact Fl].
  destruct (save _); simpl; apply Forall_app; split; try exact Fl;
    repeat constructor.
Qed.

(** The intrinsics are processed one by one in the order of the scene.
    When the detector files are loaded without a malformed one, the
    "Processing Intrinsic" lines of the run name, once each and in order,
    the intrinsics that come before the first one that is not a pinhole
    (all of them when there is none); when a detector file is malformed,
    the run is left by the exception and no intrinsic is processed. *)
Theorem main_processes_in_order
    (get_d_pixel get_ud_pixel : IntrinsicBase -> Vec2 -> Vec2)
    (estimateLines : Estimator LineWithPoints)
    (estimatePoints : Estimator PointPair)
    (sfmData : SfMData) (readFile : IndexT -> DetectorFile)
    (save : SfMData -> bool) :
  Cover.processedIds
    (snd (aliceVision_main get_d_pixel get_ud_pixel estimateLines
            estimatePoints (Some sfmData) readFile save))
  = match loadBoards readFile (getViews sfmData) ∅ with
    | None => []
    | Some _ => List.map fst (Cover.pinholePrefix (getIntrinsics sfmData))
    end
  /\ (loadBoards readFile (getViews sfmData) ∅ = None
      <-> List.Exists (fun pv => readFile (fst pv) = FileMalformed)
                      (getViews sfmData)).
Proof.
  assert (Hiff : loadBoards readFile (getViews sfmData) ∅ = None
                 <-> List.Exists (fun pv => readFile (fst pv) = FileMalformed)
                                 (getViews sfmData)).
  { generalize (∅ : gmap N CheckerDetector) as acc.
    induction (getViews sfmData) as [|pv views IH]; intros acc; simpl.
    - split; [discriminate|]. intros H. inversion H.
    - destruct (readFile (fst pv)) eqn:E.
      + rewrite IH. split; [now apply Exists_cons_tl|].
        intros H. inversion H as [? ? Hm|? ? Ht]; subst; [congruence|exact Ht].
      + split; [intros _; now apply Exists_cons_hd|reflexivity].
      + rewrite IH. split; [now apply Exists_cons_tl|].
        intros H. inversion H as [? ? Hm|? ? Ht]; subst; [congruence|exact Ht]. }
  split; [|exact Hiff].
  - unfold aliceVision_main.
    destruct (loadBoards readFile (getViews sfmData) ∅) as [boardsAllImages|];
      [|reflexivity].
    destruct (DriverMore.intrinsicsLoop_body get_d_pixel get_ud_pixel
                estimateLines estimatePoints (getViews sfmData) boardsAllImages
                (getIntrinsics sfmData) []) as (more & Etr & _ & Hids & _).
    destruct (intrinsicsLoop _ _ _ _ _ boardsAllImages (getIntrinsics sfmData) [])
      as [[out|] tr]; simpl in *; subst tr; [|exact Hids].
    destruct (save _); simpl; unfold Cover.processedIds in *;
      rewrite flat_map_app, Hids; simpl; now rewrite app_nil_r.
Qed.

(** The cameras the loop returns are those its body left, intrinsic by
    intrinsic. *)
Lemma intrinsicsLoop_cameras
    (get_d_pixel get_ud_pixel : IntrinsicBase -> Vec2 -> Vec2)
    (estimateLines : Estimator LineWithPoints)
    (estimatePoints : Estimator PointPair)
    (views : list (IndexT * View)) (boardsAllImages : gmap N CheckerDetector)
    todo tr out :
  fst (intrinsicsLoop get_d_pixel get_ud_pixel estimateLines estimatePoints
         views boardsAllImages todo tr) = Some out ->
  Forall2 (fun p q =>
             fst q = fst p
             /\ exists tr',
                  snd q = fst (calibrateIntrinsic get_d_pixel get_ud_pixel
                                 estimateLines estimatePoints views
                                 boardsAllImages (fst p) (snd p) tr'))
          todo out.
Proof.
  revert tr out; induction todo as [|[intrinsicId cam] todo IH];
    intros tr out; simpl.
  - intros [= <-]. constructor.
  - destruct (isPinhole cam); simpl; [|discriminate].
    destruct (calibrateIntrinsic _ _ _ _ _ _ intrinsicId cam tr)
      as [cam' tr'] eqn:E.
    specialize (IH tr').
    destruct (intrinsicsLoop _ _ _ _ _ _ todo tr') as [[out'|] tr''];
      simpl in *; [|discriminate].
    intros [= <-]. constructor; [|now apply IH].
    split; [reflexivity|]. exists tr. simpl. now rewrite E.
Qed.

(** When the scene is read, no detector file is malformed and every
    intrinsic is a pinhole, the scene handed to [Save] holds, under each
    id of the input and in the same order, the camera that the body of the
    loop left for that intrinsic when run on the input's views and the
    loaded detectors. *)
Theorem main_saves_calibrated_cameras
    (get_d_pixel get_ud_pixel : IntrinsicBase -> Vec2 -> Vec2)
    (estimateLines : Estimator LineWithPoints)
    (estimatePoints : Estimator PointPair)
    (sfmData : SfMData) (readFile : IndexT -> DetectorFile)
    (save : SfMData -> bool) :
  Forall (fun pv => readFile (fst pv) <> FileMalformed) (getViews sfmData) ->
  Forall (fun p => isPinhole (snd p) = true) (getIntrinsics sfmData) ->
  exists boardsAllImages out ok,
    loadBoards readFile (getViews sfmData) ∅ = Some boardsAllImages
    /\ In (SAVE {| getViews := getViews sfmData; getIntrinsics := out |} ok)
          (snd (aliceVision_main get_d_pixel get_ud_pixel estimateLines
                  estimatePoints (Some sfmData) readFile save))
    /\ Forall2 (fun p q =>
                  fst q = fst p
                  /\ exists tr',
                       snd q = fst (calibrateIntrinsic get_d_pixel get_ud_pixel
                                      estimateLines estimatePoints
                                      (getViews sfmData) boardsAllImages
                                      (fst p) (snd p) tr'))
               (getIntrinsics sfmData) out.
Proof.
  intros Hfiles Hall. unfold aliceVision_main.
  destruct (DriverFacts.loadBoards_parses readFile (getViews sfmData) ∅ Hfiles)
    as [boardsAllImages E]. rewrite E.
  destruct (DriverFacts.intrinsicsLoop_pinholes get_d_pixel get_ud_pixel
              estimateLines estimatePoints (getViews sfmData) boardsAllImages
              (getIntrinsics sfmData) [] Hall) as [out Eout].
  pose proof (intrinsicsLoop_cameras get_d_pixel get_ud_pixel estimateLines
                estimatePoints (getViews sfmData) boardsAllImages
                (getIntrinsics sfmData) [] out Eout) as Hcams.
  destruct (intrinsicsLoop _ _ _ _ _ boardsAllImages (getIntrinsics sfmData) [])
    as [r tr]; simpl in Eout; subst r.
  exists boardsAllImages, out, (save {| getViews := getViews sfmData;
                                        getIntrinsics := out |}).
  split; [reflexivity|]. split; [|exact Hcams].
  destruct (save _); simpl; apply in_or_app; right; now left.
Qed.

Lemma main_saves_calibrated_cameras_witness :
  exists boardsAllImages out ok,
    loadBoards Fixtures.filesSmallBoard (getViews Fixtures.sceneSmallBoard) ∅
    = Some boardsAllImages
    /\ In (SAVE {| getViews := getViews Fixtures.sceneSmallBoard;
                   getIntrinsics := out |} ok)
          (snd (aliceVision_main Fixtures.pixelIdentity Fixtures.pixelIdentity
                  Fixtures.estimateNudges Fixtures.estimateNudges
                  (Some Fixtures.sceneSmallBoard) Fixtures.filesSmallBoard
                  Fixtures.saveWorks))
    /\ Forall2 (fun p q =>
                  fst q = fst p
                  /\ exists tr',
                       snd q = fst (calibrateIntrinsic Fixtures.pixelIdentity
                                      Fixtures.pixelIdentity
                                      Fixtures.estimateNudges
                                      Fixtures.estimateNudges
                                      (getViews Fixtures.sceneSmallBoard)
                                      boardsAllImages (fst p) (snd p) tr'))
               (getIntrinsics Fixtures.sceneSmallBoard) out.
Proof.
  apply (main_saves_calibrated_cameras Fixtures.pixelIdentity
           Fixtures.pixelIdentity Fixtures.estimateNudges
           Fixtures.estimateNudges Fixtures.sceneSmallBoard
           Fixtures.filesSmallBoard Fixtures.saveWorks).
  - constructor; [discriminate|constructor].
  - repeat constructor.
Defined.

(** The first solver call of the forward fit, for a camera of one of the
    five distortion classes: it is made on the camera rescaled to
    [(diag, diag)] (with its parameter vector re-initialised by the two
    3DE schedules that do so), fresh statistics and all the lines
    gathered, with the lock arguments of the first stage of the class's
    table; the trace records what that very call returned. *)
Theorem forwardFit_solver_input
    (estimateLines : Estimator LineWithPoints)
    (cam : IntrinsicBase) (allLines : list LineWithPoints) (tr : list Event) :
  Spec.hasSchedule (dynamicClass cam) = true ->
  let before :=
    Cover.scheduleInit (setScale (Spec.diagOf cam, Spec.diagOf cam) cam) in
  exists lo lk ll,
    let r := estimateLines before newStatistics allLines true lo lk ll in
    head (Cover.scheduleTable (dynamicClass cam)) = Some (true, lo, lk, ll)
    /\ exists more,
         trace (snd (forwardFit estimateLines cam allLines tr))
         = tr ++ ESTIMATE true lo lk ll before (fst (fst (snd r))) (fst r)
              :: more.
Proof.
  intros H. destruct cam as [cls w0 h0 sc off ps].
  destruct cls; try discriminate H;
    unfold forwardFit, dispatch, orContinue, estimateDistortionK1,
      estimateDistortionK3, estimateDistortion3DER4, estimateDistortion3DEA4,
      estimateDistortion3DELD, andThen, ret, tryEstimate, withCamera,
      logQuality, log, Cover.scheduleInit, Spec.diagOf, setScale;
    cbn -[lookup initParams3DEA4 initParams3DELD];
    do 3 eexists; (split; [reflexivity|]);
    match goal with
    | |- context [match estimateLines ?c ?s ?i ?ls ?lo ?lk ?ll
                  with pair _ _ => _ end] =>
        destruct (estimateLines c s i ls lo lk ll) as [[|] [[? ?] ?]] eqn:E1
    end;
    cbn -[lookup initParams3DEA4 initParams3DELD];
    repeat match goal with
      | |- context [match estimateLines ?c ?s ?i ?ls ?lo ?lk ?ll
                    with pair _ _ => _ end] =>
          destruct (estimateLines c s i ls lo lk ll) as [[|] [[? ?] ?]];
          cbn -[lookup initParams3DEA4 initParams3DELD]
      end;
    match type of E1 with
    | ?L = _ =>
        match goal with
        | |- context [fst (fst (snd ?R))] => change R with L
        end
    end;
    rewrite E1;
    repeat rewrite <- app_assoc; cbn [app fst snd];
    eexists; reflexivity.
Qed.

Lemma forwardFit_solver_input_witness :
  let cam := Fixtures.mkCamera PinholeRadialK1 [0%float] in
  let before := setScale (Spec.diagOf cam, Spec.diagOf cam) cam in
  exists more,
    trace (snd (forwardFit Fixtures.estimateNudges cam [] []))
    = ESTIMATE true true [true] false before before true :: more.
Proof.
  intros cam before.
  destruct (forwardFit_solver_input Fixtures.estimateNudges cam [] [] eq_refl)
    as (lo & lk & ll & Hhead & more & Htr).
  injection Hhead as <- <- <-. exists more. exact Htr.
Defined.

(** ** Loading the detector files *)

Module LoadFacts.

Lemma loadBoards_acc readFile views acc :
  match loadBoards readFile views acc with
  | None => Exists (fun pv => readFile (fst pv) = FileMalformed) views
  | Some m =>
      Forall (fun pv => readFile (fst pv) <> FileMalformed) views
      /\ forall id,
           m !! id
           = if existsb (N.eqb id) (List.map fst views)
             then match readFile id with
                  | FileDetector detector => Some detector
                  | _ => acc !! id
                  end
             else acc !! id
  end.
Proof.
  revert acc; induction views as [|pv views IH]; intros acc; simpl.
  - split; [constructor|reflexivity].
  - destruct (readFile (fst pv)) as [| |d] eqn:E.
    + specialize (IH acc).
      destruct (loadBoards readFile views acc) as [m|].
      * destruct IH as [Hall Hm]. split.
        -- constructor; [congruence|exact Hall].
        -- intros id. rewrite Hm.
           destruct (N.eqb_spec id (fst pv)) as [->|Hne]; simpl;
             [|reflexivity].
           rewrite E. now destruct (existsb _ _).
      * now apply Exists_cons_tl.
    + now apply Exists_cons_hd.
    + specialize (IH (<[fst pv := d]> acc)).
      destruct (loadBoards readFile views (<[fst pv := d]> acc)) as [m|].
      * destruct IH as [Hall Hm]. split.
        -- constructor; [congruence|exact Hall].
        -- intros id. rewrite Hm.
           destruct (N.eqb_spec id (fst pv)) as [->|Hne]; simpl.
           ++ rewrite E, lookup_insert_eq. now destruct (existsb _ _).
           ++ rewrite lookup_insert_ne by congruence. reflexivity.
      * now apply Exists_cons_tl.
Qed.

End LoadFacts.

(** The map of detectors after the loading loop. If some view's file is
    malformed the loop is left by the exception; otherwise the map holds,
    for exactly the views whose file could be opened, the detector read
    from that file, and no entry for a view without file or for an id that
    is not a view. *)
Theorem loadBoards_lookup (readFile : IndexT -> DetectorFile)
    (views : list (IndexT * View)) :
  match loadBoards readFile views ∅ with
  | None => Exists (fun pv => readFile (fst pv) = FileMalformed) views
  | Some boardsAllImages =>
      Forall (fun pv => readFile (fst pv) <> FileMalformed) views
      /\ forall id,
           boardsAllImages !! id
           = if existsb (N.eqb id) (List.map fst views)
             then match readFile id with
                  | FileDetector detector => Some detector
                  | _ => None
                  end
             else None
  end.
Proof.
  pose proof (LoadFacts.loadBoards_acc readFile views ∅) as H.
  destruct (loadBoards readFile views ∅) as [m|]; [|exact H].
  destruct H as [Hall Hm]. split; [exact Hall|].
  intros id. rewrite Hm, lookup_empty. reflexivity.
Qed.

(** Two views, the first with a detector file and the second without. *)
Example loadBoards_two_views :
  let readFile := fun id => if (id =? 7)%N
                            then FileDetector (Fixtures.detector 3 3)
                            else FileMissing in
  let views := [(7%N, Fixtures.view 0%N); (8%N, Fixtures.view 0%N)] in
  exists m, loadBoards readFile views ∅ = Some m
            /\ m !! 7%N = Some (Fixtures.detector 3 3)
            /\ m !! 8%N = None.
Proof.
  eexists. split; [reflexivity|]. split; vm_compute; reflexivity.
Qed.
